(** * Kernel exponential family estimator: the engine of [impl/Base.cpp]

    A shallow embedding of
    [src/shogun/distributions/kernel_exp_family/impl/Base.cpp]: the data store
    (training and test matrices), the fit procedure, and the batch density
    queries built on the per-point virtual hooks of the subclasses. *)

From Stdlib Require Import ZArith Floats QArith Qcanon Lqa.
From stdpp Require Import base decidable option list sets gmap.

Local Open Scope Z_scope.

(** ** Scalars

    [float64_t] is IEEE binary64 in the program.  The containers and the loops
    only move scalars around; [objective] is the one place that computes with
    them.  The operations used there are gathered in an interface with two
    instances: the machine one ([binary64], Rocq's primitive floats) and an
    exact one ([exact], the rationals), in which sums do not depend on the
    order of their terms. *)

Class Float64 := {
  float64_t : Type;
  f64_zero : float64_t;                              (* the literal 0.0 *)
  f64_half : float64_t;                              (* the literal 0.5 *)
  f64_add : float64_t → float64_t → float64_t;
  f64_mul : float64_t → float64_t → float64_t;
  f64_div : float64_t → float64_t → float64_t;
  f64_of_index : Z → float64_t                       (* int to double *)
}.

(** The order-insensitivity that exact arithmetic has and binary64 lacks. *)
Class ExactSum (F : Float64) : Prop := {
  f64_add_comm : ∀ x y : float64_t, f64_add x y = f64_add y x;
  f64_add_assoc : ∀ x y z : float64_t,
    f64_add x (f64_add y z) = f64_add (f64_add x y) z;
  f64_add_0_l : ∀ x : float64_t, f64_add f64_zero x = x
}.

Definition float_of_Z (z : Z) : float :=
  if z <? 0 then PrimFloat.opp (PrimFloat.of_uint63 (Uint63.of_Z (- z)))
  else PrimFloat.of_uint63 (Uint63.of_Z z).

Definition binary64 : Float64 := {|
  float64_t := float;
  f64_zero := 0%float;
  f64_half := 0.5%float;
  f64_add := PrimFloat.add;
  f64_mul := PrimFloat.mul;
  f64_div := PrimFloat.div;
  f64_of_index := float_of_Z
|}.

Definition exact : Float64 := {|
  float64_t := Qc;
  f64_zero := Q2Qc 0;
  f64_half := Q2Qc (1 # 2);
  f64_add := Qcplus;
  f64_mul := Qcmult;
  f64_div := Qcdiv;
  f64_of_index := λ z, Q2Qc (inject_Z z)
|}.

(** [index_t] is a 32-bit signed integer.  No operation below does arithmetic
    that could leave its range: indices are compared, counted up to a bound,
    and converted to double. *)
Definition index_t := Z.

(** ** Containers

    [SGMatrix] and [SGVector] are handles: a pointer to a buffer of doubles
    and the dimensions.  Copying a handle shares the buffer.  A pointer is
    modelled by the address it holds together with the cells found from there
    on; comparing two pointers compares the addresses only. *)

Section Containers.
Context {F : Float64}.

Record ptr := Ptr { address : Z; pointee : list float64_t }.

Definition nullptr : ptr := Ptr 0 [].

(** [p + k] on a [float64_t*]. *)
Definition ptr_add (p : ptr) (k : Z) : ptr :=
  Ptr (address p + 8 * k) (drop (Z.to_nat k) (pointee p)).

Definition ptr_eqb (p q : ptr) : bool := address p =? address q.

Record SGMatrix := { matrix : ptr; num_rows : index_t; num_cols : index_t }.
Record SGVector := { vector : ptr; vlen : index_t }.

(** What the allocator hands back for a new buffer: where it is and what
    happens to be in its cells.  The container constructors are not part of
    this file of the program, so whether the cells are zeroed is left
    open. *)
Record allocation := { fresh_address : Z; fresh_cell : nat → float64_t }.

Definition fresh_cells (mem : allocation) (n : nat) : list float64_t :=
  fresh_cell mem <$> seq 0 n.

(** [SGVector<float64_t> v(len)] *)
Definition SGVector_new (mem : allocation) (len : index_t) : SGVector :=
  {| vector := Ptr (fresh_address mem) (fresh_cells mem (Z.to_nat len));
     vlen := len |}.

(** [SGMatrix<float64_t> m(nrows, ncols)] *)
Definition SGMatrix_new (mem : allocation) (nrows ncols : index_t) : SGMatrix :=
  {| matrix := Ptr (fresh_address mem)
                   (fresh_cells mem (Z.to_nat nrows * Z.to_nat ncols));
     num_rows := nrows; num_cols := ncols |}.

(** The default-constructed, empty vector. *)
Definition SGVector_empty : SGVector := {| vector := nullptr; vlen := 0 |}.

(** Modelled from the spec: the conversion [SGMatrix(SGVector)] is declared
    outside this file; a vector is taken as a single-column matrix over the
    same buffer. *)
Definition SGMatrix_of_vector (x : SGVector) : SGMatrix :=
  {| matrix := vector x; num_rows := vlen x; num_cols := 1 |}.

(** [m.get_column_vector(col)]: the address of the first cell of a column
    of the column-major buffer. *)
Definition get_column_vector (m : SGMatrix) (col : index_t) : ptr :=
  ptr_add (matrix m) (col * num_rows m).

(** [v[i] = x] *)
Definition SGVector_set (v : SGVector) (i : nat) (x : float64_t) : SGVector :=
  {| vector := Ptr (address (vector v)) (<[i := x]> (pointee (vector v)));
     vlen := vlen v |}.

(** [memcpy(dst, src, n * sizeof(float64_t))]: the cells at [dst] after the
    copy.  Copying past the end of either buffer has no defined result. *)
Definition memcpy (dst src : ptr) (n : nat) : option ptr :=
  if decide (n ≤ length (pointee dst) ∧ n ≤ length (pointee src))%nat
  then Some (Ptr (address dst) (take n (pointee src) ++ drop n (pointee dst)))
  else None.

(** [Map<VectorXd>(p, n)]: the [n] cells at [p] seen as an Eigen vector. *)
Definition Map_VectorXd (p : ptr) (n : index_t) : option (list float64_t) :=
  if decide (Z.to_nat n ≤ length (pointee p))%nat
  then Some (take (Z.to_nat n) (pointee p))
  else None.

(** Eigen's reductions [squaredNorm()] and [sum()], taken left to right
    (Eigen does not fix the order). *)
Definition squaredNorm (v : list float64_t) : float64_t :=
  foldl (λ acc x, f64_add acc (f64_mul x x)) f64_zero v.

Definition sum (v : list float64_t) : float64_t :=
  foldl f64_add f64_zero v.
End Containers.

Arguments ptr : clear implicits.
Arguments SGMatrix : clear implicits.
Arguments SGVector : clear implicits.
Arguments allocation : clear implicits.

(** ** The collaborators of the engine

    The kernel object, the linear solver of Eigen and the formulas of the
    concrete estimators are outside [Base.cpp]; they enter as interfaces. *)

(** [kernel::Base]: the three calls the engine makes on its kernel.  The
    kernel keeps its state to itself: it is handed matrices, it does not write
    to the estimator. *)
Class KernelBase {F : Float64} (K : Type) := {
  set_lhs : SGMatrix F → K → K;
  set_rhs : SGMatrix F → K → K;
  precompute : K → K
}.

(** The contract of the gateway that the engine relies on when test data is
    set again: after [set_rhs] and [precompute] the kernel's state mirrors the
    operands it currently has, and what the right operand was before leaves
    no trace.  In particular [precompute] after [set_rhs] is idempotent. *)
Class KernelMirrorsOperands {F : Float64} (K : Type) `{!KernelBase K} : Prop :=
  precompute_set_rhs_last : ∀ (X Y : SGMatrix F) (k : K),
    precompute (set_rhs X (precompute (set_rhs Y k))) = precompute (set_rhs X k).

(** The members of [Base].  The estimator owns its kernel; the destructor,
    which deletes it, has no counterpart here. *)
Record Base {F : Float64} (K : Type) := {
  m_lhs : SGMatrix F;
  m_rhs : SGMatrix F;
  m_kernel : K;
  m_lambda : float64_t;
  m_alpha_beta : SGVector F
}.
Arguments m_lhs {F K} _.
Arguments m_rhs {F K} _.
Arguments m_kernel {F K} _.
Arguments m_lambda {F K} _.
Arguments m_alpha_beta {F K} _.

(** The pure virtual members, implemented by the concrete estimators.  They
    are [const]: they read the estimator and return a value, or raise (no
    value, [None]). *)
Class Hooks {F : Float64} (K : Type) := {
  build_system : Base K → option (SGMatrix F * SGVector F);
  log_pdf_at : Base K → index_t → option float64_t;          (* log_pdf(i) *)
  grad_at : Base K → index_t → option (SGVector F);          (* grad(i) *)
  hessian_diag_at : Base K → index_t → option (SGVector F)   (* hessian_diag(i) *)
}.

(** Eigen's dense matrix view and its Jacobi SVD solver. *)
Inductive DecompositionOptions :=
  ComputeFullU | ComputeThinU | ComputeFullV | ComputeThinV.

Record MatrixXd {F : Float64} := {
  rows : index_t; cols : index_t; coeffs : list float64_t
}.
Arguments MatrixXd : clear implicits.

Class JacobiSVD {F : Float64} := {
  (** [JacobiSVD<MatrixXd>(A, options).solve(b)] *)
  JacobiSVD_solve :
    list DecompositionOptions → MatrixXd F → list float64_t → list float64_t
}.

(** ** Loops

    A [for] loop over iterations that may raise.  The iterations are listed in
    the order in which they take effect: [0, 1, ..., N-1] for the loop as
    written, any interleaving under [#pragma omp parallel for]. *)
Fixpoint for_each {S : Type} (body : S → nat → option S)
    (iterations : list nat) (s : S) : option S :=
  match iterations with
  | [] => Some s
  | i :: rest => s' ← body s i; for_each body rest s'
  end.

(** The iterations [for (auto i=0; i<N; ++i)] in program order. *)
Definition in_order (N : index_t) : list nat := seq 0 (Z.to_nat N).

(** An interleaving of the iterations of a parallel loop: each iteration runs
    once. *)
Definition interleaving (N : index_t) (order : list nat) : Prop :=
  order ≡ₚ in_order N.

(** A distribution of the iterations over threads, for a loop with a
    reduction: one list of iterations per thread. *)
Definition distribution (N : index_t) (threads : list (list nat)) : Prop :=
  concat threads ≡ₚ in_order N.

(** [#pragma omp parallel for reduction (+:x)]: every thread accumulates the
    iterations it is given into a private copy that starts at zero; the
    private copies are then added to the original value. *)
Definition for_each_reduction {F : Float64}
    (body : float64_t → nat → option float64_t)
    (threads : list (list nat)) (original : float64_t) : option float64_t :=
  privates ← mapM (λ mine, for_each body mine f64_zero) threads;
  Some (foldl f64_add original privates).

(** ** The engine *)

Section Engine.
Context {F : Float64} {K : Type} `{!KernelBase K} `{!JacobiSVD}.
Context (hooks : Hooks K).

Implicit Types (e : Base K) (X A : SGMatrix F) (x b : SGVector F).

Definition get_num_dimensions e : index_t := num_rows (m_lhs e).

Definition get_num_lhs e : index_t := num_cols (m_lhs e).

Definition set_test_data e X : Base K :=
  let k := set_rhs X (m_kernel e) in
  let k := precompute k in
  {| m_lhs := m_lhs e; m_rhs := X; m_kernel := k;
     m_lambda := m_lambda e; m_alpha_beta := m_alpha_beta e |}.

Definition set_test_data_vector e x : Base K :=
  set_test_data e (SGMatrix_of_vector x).

Definition reset_test_data e : Base K :=
  set_test_data e (m_lhs e).

Definition is_test_equals_train_data e : bool :=
  if negb (ptr_eqb (matrix (m_lhs e)) (matrix (m_rhs e))) then false
  else if negb (num_rows (m_lhs e) =? num_rows (m_rhs e)) then false
  else if negb (num_cols (m_lhs e) =? num_cols (m_rhs e)) then false
  else true.

Definition get_num_rhs e : index_t := num_cols (m_rhs e).

Definition get_lhs_point e (i : index_t) : SGVector F :=
  {| vector := get_column_vector (m_lhs e) i; vlen := get_num_dimensions e |}.

Definition get_rhs_point e (i : index_t) : SGVector F :=
  {| vector := get_column_vector (m_rhs e) i; vlen := get_num_dimensions e |}.

(** The constructor.  [m_alpha_beta] is not mentioned by it and starts as
    the empty vector. *)
Definition Base_new (data : SGMatrix F) (kernel : K) (lambda : float64_t)
    : Base K :=
  let k := set_lhs data kernel in
  let k := set_rhs data k in
  let k := precompute k in
  {| m_lhs := data; m_rhs := data; m_kernel := k;
     m_lambda := lambda; m_alpha_beta := SGVector_empty |}.

(** [Map<MatrixXd>(p, r, c)] *)
Definition Map_MatrixXd (p : ptr F) (r c : index_t) : option (MatrixXd F) :=
  coeffs ← Map_VectorXd p (r * c);
  Some {| rows := r; cols := c; coeffs := coeffs |}.

(** Assignment through a [Map]: the view cannot be resized, the value must
    have its size. *)
Definition Map_assign (dst : ptr F) (value : list float64_t) : option (ptr F) :=
  if decide (length value = length (pointee dst))
  then Some (Ptr (address dst) value)
  else None.

(** The singular values that [solve_and_store] reads afterwards are only
    logged. *)
Definition solve_and_store (mem : allocation F) e A b : option (Base K) :=
  eigen_A ← Map_MatrixXd (matrix A) (num_rows A) (num_cols A);
  eigen_b ← Map_VectorXd (vector b) (vlen b);
  let alpha_beta := SGVector_new mem (vlen b) in
  let solution := JacobiSVD_solve [ComputeThinU; ComputeThinV] eigen_A eigen_b in
  stored ← Map_assign (vector alpha_beta) solution;
  Some {| m_lhs := m_lhs e; m_rhs := m_rhs e; m_kernel := m_kernel e;
          m_lambda := m_lambda e;
          m_alpha_beta := {| vector := stored; vlen := vlen alpha_beta |} |}.

Definition fit (mem : allocation F) e : option (Base K) :=
  A_b ← build_system e;
  solve_and_store mem e A_b.1 A_b.2.

(** One iteration of the loop of [objective]. *)
Definition objective_body e (D : index_t) (objective : float64_t) (i : nat)
    : option float64_t :=
  gradient ← grad_at e (Z.of_nat i);
  eigen_gradient ← Map_VectorXd (vector gradient) D;
  let objective := f64_add objective (f64_mul f64_half (squaredNorm eigen_gradient)) in
  hessian_diag ← hessian_diag_at e (Z.of_nat i);
  eigen_hessian_diag ← Map_VectorXd (vector hessian_diag) D;
  Some (f64_add objective (sum eigen_hessian_diag)).

(** [objective()] with the pragma honoured, for a given distribution of the
    iterations over the threads. *)
Definition objective_omp (threads : list (list nat)) e : option float64_t :=
  let N := get_num_rhs e in
  let D := get_num_dimensions e in
  objective ← for_each_reduction (objective_body e D) threads f64_zero;
  Some (f64_div objective (f64_of_index N)).

(** [objective()] compiled without OpenMP: the loop as written. *)
Definition objective e : option float64_t :=
  let N := get_num_rhs e in
  let D := get_num_dimensions e in
  objective ← for_each (objective_body e D) (in_order N) f64_zero;
  Some (f64_div objective (f64_of_index N)).

Definition log_pdf_body e (result : SGVector F) (i : nat) : option (SGVector F) :=
  value ← log_pdf_at e (Z.of_nat i);
  Some (SGVector_set result i value).

(** [log_pdf()] under an interleaving of its iterations. *)
Definition log_pdf_omp (order : list nat) (mem : allocation F) e
    : option (SGVector F) :=
  let N_test := get_num_rhs e in
  let result := SGVector_new mem N_test in
  for_each (log_pdf_body e) order result.

Definition log_pdf (mem : allocation F) e : option (SGVector F) :=
  log_pdf_omp (in_order (get_num_rhs e)) mem e.

(** One iteration of the loop of [grad()].  [memcpy] takes the destination
    first: the cells of column [i] of [result] are copied over the vector
    that the hook returned, which is dropped at the end of the iteration;
    [result] is only read.  What the copy leaves at the pointer of the
    hook's vector is [grad_hook_vector_after], further down. *)
Definition grad_body e (D : index_t) (result : SGMatrix F) (i : nat)
    : option (SGMatrix F) :=
  grad ← grad_at e (Z.of_nat i);
  overwritten ← memcpy (vector grad) (get_column_vector result (Z.of_nat i))
                       (Z.to_nat D);
  Some result.

(** [grad()] under an interleaving of its iterations. *)
Definition grad_omp (order : list nat) (mem : allocation F) e
    : option (SGMatrix F) :=
  let N_test := get_num_rhs e in
  let D := get_num_dimensions e in
  let result := SGMatrix_new mem D N_test in
  for_each (grad_body e D) order result.

Definition grad (mem : allocation F) e : option (SGMatrix F) :=
  grad_omp (in_order (get_num_rhs e)) mem e.

(** Column [i] of a matrix, as the list of its [num_rows] cells. *)
Definition column (m : SGMatrix F) (i : nat) : list float64_t :=
  take (Z.to_nat (num_rows m)) (pointee (get_column_vector m (Z.of_nat i))).
End Engine.

(** ** Histories of an estimator *)

Section Histories.
Context {F : Float64} {K : Type} `{!KernelBase K} `{!JacobiSVD}.
Context (hooks : Hooks K).

(** The calls that change the test data. *)
Inductive test_data_call :=
| call_set_test_data (X : SGMatrix F)
| call_set_test_data_vector (x : SGVector F)
| call_reset_test_data.

Definition do_call (e : Base K) (c : test_data_call) : Base K :=
  match c with
  | call_set_test_data X => set_test_data e X
  | call_set_test_data_vector x => set_test_data_vector e x
  | call_reset_test_data => reset_test_data e
  end.

Definition do_calls (e : Base K) (calls : list test_data_call) : Base K :=
  foldl do_call e calls.

(** An estimator on which [fit()] has never been called: constructed, and
    since then only given test data. *)
Definition never_fitted (e : Base K) : Prop :=
  ∃ data kernel lambda calls, e = do_calls (Base_new data kernel lambda) calls.

(** An estimator whose test data was never set: constructed, and since then
    only fitted. *)
Inductive test_data_never_set : Base K → Prop :=
| never_set_new data kernel lambda :
    test_data_never_set (Base_new data kernel lambda)
| never_set_fit mem e e' :
    test_data_never_set e → fit hooks mem e = Some e' →
    test_data_never_set e'.
End Histories.

(** ** What the batch queries are meant to return

    Written from the description of the queries, for comparison with the
    loops above. *)

Section Reference.
Context {F : Float64} {K : Type} `{!KernelBase K}.
Context (hooks : Hooks K).

Implicit Types (e : Base K).

(** The per-point values [log_pdf(i)], in test-point order. *)
Definition log_pdf_values e : option (list float64_t) :=
  mapM (λ i, log_pdf_at e (Z.of_nat i)) (in_order (get_num_rhs e)).

(** The hook [grad(i)] returns, with a vector of at least [D] cells. *)
Definition grad_point_ok e (i : nat) : Prop :=
  ∃ g, grad_at e (Z.of_nat i) = Some g ∧
       (Z.to_nat (get_num_dimensions e) ≤ length (pointee (vector g)))%nat.

(** The term of test point [i]: [0.5·‖grad(i)‖² + sum(hessian_diag(i))]. *)
Definition point_term e (i : nat) : option float64_t :=
  let D := get_num_dimensions e in
  gradient ← grad_at e (Z.of_nat i);
  eigen_gradient ← Map_VectorXd (vector gradient) D;
  hessian_diag ← hessian_diag_at e (Z.of_nat i);
  eigen_hessian_diag ← Map_VectorXd (vector hessian_diag) D;
  Some (f64_add (f64_mul f64_half (squaredNorm eigen_gradient))
                (sum eigen_hessian_diag)).

(** The two numbers that test point [i] contributes to the sum, in the order
    in which the loop adds them. *)
Definition point_summands e (i : nat) : option (list float64_t) :=
  let D := get_num_dimensions e in
  gradient ← grad_at e (Z.of_nat i);
  eigen_gradient ← Map_VectorXd (vector gradient) D;
  hessian_diag ← hessian_diag_at e (Z.of_nat i);
  eigen_hessian_diag ← Map_VectorXd (vector hessian_diag) D;
  Some [f64_mul f64_half (squaredNorm eigen_gradient); sum eigen_hessian_diag].

(** The mean of the terms over the test points. *)
Definition mean_point_term e : option float64_t :=
  let N := get_num_rhs e in
  terms ← mapM (point_term e) (in_order N);
  Some (f64_div (sum terms) (f64_of_index N)).
End Reference.

(** ** A worked scenario

    Three training points in two dimensions, [lambda = 0.1], a kernel that
    records its operands, and small concrete estimators on top of the
    engine. *)

Module Scenario.
Section Generic.
Context {F : Float64}.

Definition num (z : Z) : float64_t := f64_of_index z.

(** A kernel that remembers its operands and whether its tables are up to
    date. *)
Record recording_kernel := {
  k_lhs : option (SGMatrix F);
  k_rhs : option (SGMatrix F);
  k_precomputed : bool
}.

#[export] Instance recording_kernel_base : KernelBase recording_kernel := {|
  set_lhs X k := {| k_lhs := Some X; k_rhs := k_rhs k; k_precomputed := false |};
  set_rhs X k := {| k_lhs := k_lhs k; k_rhs := Some X; k_precomputed := false |};
  precompute k := {| k_lhs := k_lhs k; k_rhs := k_rhs k; k_precomputed := true |}
|}.

Definition kernel0 : recording_kernel :=
  {| k_lhs := None; k_rhs := None; k_precomputed := false |}.

(** A solver for this scenario only: its systems have the identity as their
    matrix, and for the identity the least-squares solution is the right-hand
    side, which is what this solver returns.  It is not a solver for any
    other matrix. *)
#[export] Instance identity_solver : JacobiSVD := {|
  JacobiSVD_solve _ _ b := b
|}.

(** The points (1,2), (3,4), (5,6), column by column. *)
Definition data : SGMatrix F :=
  {| matrix := Ptr 4096 (num <$> [1; 2; 3; 4; 5; 6]); num_rows := 2; num_cols := 3 |}.

(** The same numbers in a buffer of their own. *)
Definition data_copy : SGMatrix F :=
  {| matrix := Ptr 8192 (num <$> [1; 2; 3; 4; 5; 6]); num_rows := 2; num_cols := 3 |}.

(** Two test points. *)
Definition test_points : SGMatrix F :=
  {| matrix := Ptr 12288 (num <$> [7; 8; 9; 10]); num_rows := 2; num_cols := 2 |}.

(** A training matrix without points. *)
Definition no_points : SGMatrix F :=
  {| matrix := Ptr 16384 []; num_rows := 2; num_cols := 0 |}.

Definition lambda : float64_t := f64_div (num 1) (num 10).

(** An allocator that hands out zeroed cells. *)
Definition zeroed : allocation F :=
  {| fresh_address := 65536; fresh_cell := λ _, f64_zero |}.

(** An allocator that hands out cells with something left in them. *)
Definition dirty : allocation F :=
  {| fresh_address := 131072; fresh_cell := λ n, num (Z.of_nat n + 40) |}.

Definition identity_cells (n : nat) : list float64_t :=
  i ← seq 0 n; j ← seq 0 n; [if decide (i = j) then num 1 else num 0].

Definition in_range (e : Base recording_kernel) (i : index_t) : bool :=
  (0 <=? i) && (i <? get_num_rhs e).

Definition rhs_column (e : Base recording_kernel) (i : index_t) : list float64_t :=
  column (m_rhs e) (Z.to_nat i).

(** A small estimator: the system is the identity against the first
    coordinates of the training points; the log-density at a test point adds
    up its coordinates and the coefficients; the gradient is the point; the
    Hessian diagonal is all [-1]. *)
Definition simple_hooks : Hooks recording_kernel := {|
  build_system e :=
    let N := Z.to_nat (get_num_lhs e) in
    Some ({| matrix := Ptr 20480 (identity_cells N);
             num_rows := get_num_lhs e; num_cols := get_num_lhs e |},
          {| vector := Ptr 24576 ((λ i, default f64_zero (head (column (m_lhs e) i)))
                                    <$> seq 0 N);
             vlen := get_num_lhs e |});
  log_pdf_at e i :=
    if in_range e i
    then Some (f64_add (sum (rhs_column e i)) (sum (pointee (vector (m_alpha_beta e)))))
    else None;
  grad_at e i :=
    if in_range e i
    then Some {| vector := Ptr 28672 (rhs_column e i); vlen := get_num_dimensions e |}
    else None;
  hessian_diag_at e i :=
    if in_range e i
    then Some {| vector := Ptr 32768 (replicate (Z.to_nat (get_num_dimensions e)) (num (-1)));
                 vlen := get_num_dimensions e |}
    else None
|}.

(** An estimator whose hooks all raise. *)
Definition raising_hooks : Hooks recording_kernel := {|
  build_system _ := None;
  log_pdf_at _ _ := None;
  grad_at _ _ := None;
  hessian_diag_at _ _ := None
|}.

(** Constructed, not fitted. *)
Definition unfitted : Base recording_kernel := Base_new data kernel0 lambda.

(** Constructed over no points, not fitted. *)
Definition unfitted_empty : Base recording_kernel := Base_new no_points kernel0 lambda.

(** Constructed and fitted; [unfitted] if the fit raised. *)
Definition fitted : Base recording_kernel :=
  default unfitted (fit simple_hooks zeroed unfitted).
End Generic.
End Scenario.

(** ** Whole lives of an estimator *)

Section Lifetime.
Context {F : Float64} {K : Type} `{!KernelBase K} `{!JacobiSVD}.
Context (hooks : Hooks K).

(** The calls that change an estimator. *)
Inductive call :=
| call_fit (mem : allocation F)
| call_test_data (c : test_data_call (F := F)).

Definition do_step (e : Base K) (c : call) : option (Base K) :=
  match c with
  | call_fit mem => fit hooks mem e
  | call_test_data c => Some (do_call e c)
  end.

Fixpoint run (e : Base K) (calls : list call) : option (Base K) :=
  match calls with
  | [] => Some e
  | c :: rest => e' ← do_step e c; run e' rest
  end.

(** The matrix that the calls leave as test data, when the training matrix is
    [lhs] and the test data was [rhs] before them. *)
Fixpoint last_test_data (lhs rhs : SGMatrix F) (calls : list call) : SGMatrix F :=
  match calls with
  | [] => rhs
  | call_fit _ :: rest => last_test_data lhs rhs rest
  | call_test_data (call_set_test_data X) :: rest => last_test_data lhs X rest
  | call_test_data (call_set_test_data_vector x) :: rest =>
      last_test_data lhs (SGMatrix_of_vector x) rest
  | call_test_data call_reset_test_data :: rest => last_test_data lhs lhs rest
  end.

(** The estimator with other coefficients. *)
Definition with_alpha_beta (e : Base K) (alpha_beta : SGVector F) : Base K :=
  {| m_lhs := m_lhs e; m_rhs := m_rhs e; m_kernel := m_kernel e;
     m_lambda := m_lambda e; m_alpha_beta := alpha_beta |}.
End Lifetime.

(** ** The kernel behind its pointer

    [m_kernel] is a [kernel::Base*]: the constructor keeps the pointer it is
    given, every call on the kernel changes the object it points to, and the
    destructor deletes that object.  Here the kernels live in a heap, and an
    estimator holds the address of its kernel; the member functions are the
    ones above, run on the kernel found at that address. *)

Section KernelPointer.
Context {F : Float64} {K : Type} `{!KernelBase K}.

Implicit Types (heap : gmap Z K) (h : Base Z).

Definition attach h (k : K) : Base K :=
  {| m_lhs := m_lhs h; m_rhs := m_rhs h; m_kernel := k;
     m_lambda := m_lambda h; m_alpha_beta := m_alpha_beta h |}.

Definition detach (e : Base K) (p : Z) : Base Z :=
  {| m_lhs := m_lhs e; m_rhs := m_rhs e; m_kernel := p;
     m_lambda := m_lambda e; m_alpha_beta := m_alpha_beta e |}.

(** A member function that calls the kernel through [m_kernel].  There is no
    kernel to call at a null or dangling pointer. *)
Definition through_kernel (member : Base K → Base K) heap h
    : option (gmap Z K * Base Z) :=
  k ← heap !! m_kernel h;
  let e := member (attach h k) in
  Some (<[m_kernel h := m_kernel e]> heap, detach e (m_kernel h)).

(** [new Base(data, kernel, lambda)] for a kernel at address [kernel]. *)
Definition Base_new_at heap (data : SGMatrix F) (kernel : Z) (lambda : float64_t)
    : option (gmap Z K * Base Z) :=
  k ← heap !! kernel;
  let e := Base_new data k lambda in
  Some (<[kernel := m_kernel e]> heap, detach e kernel).

Definition set_test_data_at heap h (X : SGMatrix F) : option (gmap Z K * Base Z) :=
  through_kernel (λ e, set_test_data e X) heap h.

Definition reset_test_data_at heap h : option (gmap Z K * Base Z) :=
  through_kernel reset_test_data heap h.

(** [~Base()]: [delete m_kernel].  Deleting a null pointer does nothing;
    deleting what is not (or no longer) allocated has no defined result. *)
Definition Base_delete heap h : option (gmap Z K) :=
  if decide (m_kernel h = 0) then Some heap
  else k ← heap !! m_kernel h; Some (delete (m_kernel h) heap).
End KernelPointer.

(** ** More cases of the scenario *)

Module Cases.
Section Generic.
Context {F : Float64}.

(** Three test points with one coordinate each. *)
Definition flat_points : SGMatrix F :=
  {| matrix := Ptr 36864 (Scenario.num <$> [7; 8; 9]); num_rows := 1; num_cols := 3 |}.

(** A single point, as a vector. *)
Definition one_point : SGVector F :=
  {| vector := Ptr 40960 (Scenario.num <$> [7; 8]); vlen := 2 |}.

(** The estimator of [Scenario.simple_hooks], returning vectors with one more
    cell than the dimension, and claiming no length at all. *)
Definition padded_hooks : Hooks Scenario.recording_kernel := {|
  build_system := build_system (Hooks := Scenario.simple_hooks);
  log_pdf_at := log_pdf_at (Hooks := Scenario.simple_hooks);
  grad_at e i :=
    if Scenario.in_range e i
    then Some {| vector := Ptr 45056 (Scenario.rhs_column e i ++ [Scenario.num 99]);
                 vlen := 0 |}
    else None;
  hessian_diag_at e i :=
    if Scenario.in_range e i
    then Some {| vector := Ptr 49152
                   (replicate (Z.to_nat (get_num_dimensions e)) (Scenario.num (-1))
                    ++ [Scenario.num 77]);
                 vlen := 0 |}
    else None
|}.

(** An estimator whose gradient is twice the point. *)
Definition doubling_hooks : Hooks Scenario.recording_kernel := {|
  build_system := build_system (Hooks := Scenario.simple_hooks);
  log_pdf_at := log_pdf_at (Hooks := Scenario.simple_hooks);
  grad_at e i :=
    if Scenario.in_range e i
    then Some {| vector := Ptr 53248 ((λ x, f64_add x x) <$> Scenario.rhs_column e i);
                 vlen := get_num_dimensions e |}
    else None;
  hessian_diag_at := hessian_diag_at (Hooks := Scenario.simple_hooks)
|}.

(** A solver that returns as many entries as the matrix has columns, as
    Eigen's does. *)
Definition sized_solver : JacobiSVD := {|
  JacobiSVD_solve _ A b :=
    take (Z.to_nat (cols A)) (b ++ replicate (Z.to_nat (cols A)) f64_zero)
|}.

(** An assembler that returns a system with three equations and four
    unknowns. *)
Definition wide_hooks : Hooks Scenario.recording_kernel := {|
  build_system e :=
    Some ({| matrix := Ptr 57344 (replicate 12 (Scenario.num 1));
             num_rows := 3; num_cols := 4 |},
          {| vector := Ptr 61440 (Scenario.num <$> [1; 3; 5]); vlen := 3 |});
  log_pdf_at := log_pdf_at (Hooks := Scenario.simple_hooks);
  grad_at := grad_at (Hooks := Scenario.simple_hooks);
  hessian_diag_at := hessian_diag_at (Hooks := Scenario.simple_hooks)
|}.

(** A life: fitted, given two test points, fitted again, reset. *)
Definition busy_life : list (call (F := F)) :=
  [call_fit Scenario.zeroed;
   call_test_data (call_set_test_data Scenario.test_points);
   call_fit Scenario.dirty;
   call_test_data call_reset_test_data].

(** The scenario at the end of that life. *)
Definition after_busy_life : Base Scenario.recording_kernel :=
  default Scenario.unfitted
    (run (KernelBase0 := Scenario.recording_kernel_base)
         (H := Scenario.identity_solver) Scenario.simple_hooks Scenario.unfitted
       busy_life).

(** The unfitted estimator of the scenario with its kernel at an address. *)
Definition at_kernel (p : Z) : Base Z := detach Scenario.unfitted p.

(** A heap with two kernels. *)
Definition two_kernels : gmap Z Scenario.recording_kernel :=
  {[ 256 := Scenario.kernel0; 512 := Scenario.kernel0 ]}.
End Generic.
End Cases.

(** ** Least squares

    What the fit procedure asks of its solver, in the words of its
    description: the least-squares solution of [A x = b], of minimum norm
    among the least-squares solutions.  Stated with the subtraction and the
    order of the scalars, which the engine itself does not use. *)

Class Float64Order (F : Float64) := {
  f64_sub : float64_t → float64_t → float64_t;
  f64_le : float64_t → float64_t → Prop
}.

Definition exact_order : Float64Order exact :=
  @Build_Float64Order exact Qcminus Qcle.

Section LeastSquares.
Context {F : Float64}.

(** Coefficient [(r, c)] of a column-major matrix. *)
Definition coefficient (A : MatrixXd F) (r c : nat) : float64_t :=
  default f64_zero (coeffs A !! (r + c * Z.to_nat (rows A))%nat).

Definition dot (u v : list float64_t) : float64_t :=
  sum (zip_with f64_mul u v).

(** The product [A x]. *)
Definition times (A : MatrixXd F) (x : list float64_t) : list float64_t :=
  (λ r, dot (coefficient A r <$> seq 0 (Z.to_nat (cols A))) x)
    <$> seq 0 (Z.to_nat (rows A)).

Context {O : Float64Order F}.

(** [‖A x - b‖²] *)
Definition residual (A : MatrixXd F) (b x : list float64_t) : float64_t :=
  squaredNorm (zip_with f64_sub (times A x) b).

Definition least_squares (A : MatrixXd F) (b x : list float64_t) : Prop :=
  length x = Z.to_nat (cols A) ∧
  ∀ y, length y = Z.to_nat (cols A) → f64_le (residual A b x) (residual A b y).

Definition minimum_norm_least_squares (A : MatrixXd F) (b x : list float64_t)
    : Prop :=
  least_squares A b x ∧
  ∀ y, least_squares A b y → f64_le (squaredNorm x) (squaredNorm y).
End LeastSquares.

(** ** What [grad()] writes

    The destination of the [memcpy] in the loop of [grad()] is the vector
    that the hook returned: this is what lies at its pointer when the
    iteration ends.  [grad_body] is this write followed by [Some result]. *)

Section GradWrites.
Context {F : Float64} {K : Type} `{!KernelBase K}.
Context (hooks : Hooks K).

Definition grad_hook_vector_after (e : Base K) (D : index_t)
    (result : SGMatrix F) (i : nat) : option (ptr F) :=
  grad ← grad_at e (Z.of_nat i);
  memcpy (vector grad) (get_column_vector result (Z.of_nat i)) (Z.to_nat D).
End GradWrites.

(** ** A singular system *)

Module Systems.
Section Generic.
Context {F : Float64}.






End Generic.
End Systems.

(** * Properties *)

(** ** The data store *)

Section DataStore.
Context {F : Float64} {K : Type} `{!KernelBase K} `{!JacobiSVD}.
Context (hooks : Hooks K).

Implicit Types (e : Base K) (X : SGMatrix F).

Lemma is_test_equals_train_data_true e :
  is_test_equals_train_data e = true ↔
    address (matrix (m_rhs e)) = address (matrix (m_lhs e)) ∧
    num_rows (m_rhs e) = num_rows (m_lhs e) ∧
    num_cols (m_rhs e) = num_cols (m_lhs e).
Proof.
  unfold is_test_equals_train_data, ptr_eqb.
  destruct (Z.eqb_spec (address (matrix (m_lhs e))) (address (matrix (m_rhs e))));
    destruct (Z.eqb_spec (num_rows (m_lhs e)) (num_rows (m_rhs e)));
    destruct (Z.eqb_spec (num_cols (m_lhs e)) (num_cols (m_rhs e)));
    simpl; intuition congruence.
Qed.

Lemma is_test_equals_train_data_same e :
  m_rhs e = m_lhs e → is_test_equals_train_data e = true.
Proof. intros Hrhs. apply is_test_equals_train_data_true. by rewrite Hrhs. Qed.

Lemma do_call_frame e c :
  m_lhs (do_call e c) = m_lhs e ∧
  m_lambda (do_call e c) = m_lambda e ∧
  m_alpha_beta (do_call e c) = m_alpha_beta e.
Proof. by destruct c. Qed.

Lemma do_calls_frame e calls :
  m_lhs (do_calls e calls) = m_lhs e ∧
  m_lambda (do_calls e calls) = m_lambda e ∧
  m_alpha_beta (do_calls e calls) = m_alpha_beta e.
Proof.
  revert e. induction calls as [|c calls IH]; intros e; [done|].
  unfold do_calls in *. simpl.
  destruct (IH (do_call e c)) as (-> & -> & ->). apply do_call_frame.
Qed.

(** Whatever test data was set in between, setting the right operand anew
    gives the kernel it would have given at the start. *)
Lemma do_calls_kernel `{!KernelMirrorsOperands K} e calls X :
  precompute (set_rhs X (m_kernel (do_calls e calls))) =
  precompute (set_rhs X (m_kernel e)).
Proof.
  revert e. induction calls as [|c calls IH]; intros e; [done|].
  unfold do_calls in *. simpl. rewrite IH.
  destruct c; simpl; apply precompute_set_rhs_last.
Qed.

Lemma fit_frame mem e e' :
  fit hooks mem e = Some e' →
  m_lhs e' = m_lhs e ∧ m_rhs e' = m_rhs e ∧
  m_kernel e' = m_kernel e ∧ m_lambda e' = m_lambda e.
Proof.
  unfold fit, solve_and_store. intros Hfit.
  destruct (build_system e) as [[A b]|]; simplify_option_eq; done.
Qed.

(** While the test data was never set, it is the training data, and the
    kernel is precomputed against it. *)
Lemma test_data_never_set_inv e :
  test_data_never_set hooks e →
  m_rhs e = m_lhs e ∧ ∃ k, m_kernel e = precompute (set_rhs (m_lhs e) k).
Proof.
  induction 1 as [data kernel lambda|mem e e' _ [IHrhs [k IHk]] Hfit].
  - split; [done|]. by eexists.
  - apply fit_frame in Hfit as (-> & -> & -> & _). eauto.
Qed.

Lemma reset_after_calls `{!KernelMirrorsOperands K} e calls :
  test_data_never_set hooks e →
  reset_test_data (do_calls e calls) = e.
Proof.
  intros [Hrhs [k0 Hk0]]%test_data_never_set_inv.
  destruct (do_calls_frame e calls) as (Hl & Hla & Hab).
  unfold reset_test_data, set_test_data.
  rewrite Hl, Hla, Hab, do_calls_kernel, Hk0, precompute_set_rhs_last, <- Hk0.
  rewrite <- Hrhs at 2. by destruct e.
Qed.
End DataStore.

(** ** Loops that fill a result, slot by slot *)

Section Loops.
Context {S : Type}.
Implicit Types (body : S → nat → option S) (s : S).

Lemma for_each_app body l1 l2 s :
  for_each body (l1 ++ l2) s = s' ← for_each body l1 s; for_each body l2 s'.
Proof.
  revert s. induction l1 as [|i l1 IH]; intros s; simpl; [done|].
  destruct (body s i); simpl; [apply IH|done].
Qed.

(** A loop whose iterations leave the state alone returns the state it was
    given, if it returns. *)
Lemma for_each_unchanged body l s s' :
  (∀ s1 i s2, body s1 i = Some s2 → s2 = s1) →
  for_each body l s = Some s' → s' = s.
Proof.
  intros Hbody. revert s. induction l as [|i l IH]; intros s; simpl.
  - congruence.
  - destruct (body s i) as [s1|] eqn:Hi; simpl; [|done].
    apply Hbody in Hi as ->. apply IH.
Qed.

(** A loop returns when each of its iterations does; [ok] says which
    iterations return, whatever the state. *)
Lemma for_each_is_Some body (ok : nat → Prop) l s :
  (∀ s1 i, is_Some (body s1 i) ↔ ok i) →
  is_Some (for_each body l s) ↔ Forall ok l.
Proof.
  intros Hbody. revert s. induction l as [|i l IH]; intros s; simpl.
  - split; [constructor|eauto].
  - rewrite Forall_cons, <- (Hbody s i).
    destruct (body s i) as [s1|]; simpl.
    + rewrite IH. split; [eauto|tauto].
    + split; [by intros [??]|by intros [[??] _]].
Qed.
End Loops.

Lemma elem_of_concat {A : Type} (x : A) (ls : list (list A)) :
  x ∈ concat ls ↔ ∃ l, x ∈ l ∧ l ∈ ls.
Proof.
  induction ls as [|l0 ls IH]; simpl.
  - split; [by intros ?%elem_of_nil|]. by intros (l & _ & ?%elem_of_nil).
  - rewrite elem_of_app, IH. split.
    + intros [Hx|(l & Hx & Hl)]; [exists l0|exists l]; split; try done.
      * by left.
      * by right.
    + intros (l & Hx & [->|Hl]%elem_of_cons); [by left|right; eauto].
Qed.

Section BatchLogPdf.
Context {F : Float64} {K : Type} `{!KernelBase K}.
Context (hooks : Hooks K).

Implicit Types (e : Base K) (r : SGVector F).

Lemma log_pdf_body_is_Some e r i :
  is_Some (log_pdf_body hooks e r i) ↔ is_Some (log_pdf_at e (Z.of_nat i)).
Proof.
  unfold log_pdf_body. destruct (log_pdf_at e (Z.of_nat i)); simpl.
  - split; eauto.
  - split; by intros [??].
Qed.

(** After the loop, whatever the order of its iterations: a slot that some
    iteration wrote holds the value of the hook at its index, every other
    slot is as it was. *)
Lemma for_each_log_pdf_slots e order r r' :
  for_each (log_pdf_body hooks e) order r = Some r' →
  vlen r' = vlen r ∧
  address (vector r') = address (vector r) ∧
  length (pointee (vector r')) = length (pointee (vector r)) ∧
  ∀ k, pointee (vector r') !! k =
       if decide (k ∈ order ∧ (k < length (pointee (vector r)))%nat)
       then log_pdf_at e (Z.of_nat k)
       else pointee (vector r) !! k.
Proof.
  revert r. induction order as [|i order IH]; intros r; simpl.
  - intros [= <-]. split_and!; done.
  - destruct (log_pdf_body hooks e r i) as [r1|] eqn:Hbody; simpl; [|done].
    unfold log_pdf_body in Hbody.
    destruct (log_pdf_at e (Z.of_nat i)) as [v|] eqn:Hv; simplify_eq/=.
    intros (Hlen & Haddr & Hcells & Hslots)%IH. simpl in *.
    rewrite length_insert in Hcells, Hslots.
    split_and!; try done. intros k. rewrite Hslots.
    destruct (decide (k = i)) as [->|Hne].
    + destruct (decide (i < length (pointee (vector r)))%nat) as [Hi|Hi].
      * rewrite (decide_True (P := i ∈ i :: order ∧ _)) by (split; [left|done]).
        case_decide; [done|]. by rewrite list_lookup_insert_eq.
      * rewrite list_insert_ge by lia.
        rewrite !decide_False by tauto. done.
    + rewrite list_lookup_insert_ne by done.
      assert (k ∈ i :: order ↔ k ∈ order) as Hmem.
      { rewrite elem_of_cons. tauto. }
      repeat case_decide; tauto.
Qed.

Lemma in_order_elem_of (N : index_t) (k : nat) :
  k ∈ in_order N ↔ (k < Z.to_nat N)%nat.
Proof. unfold in_order. rewrite elem_of_seq. lia. Qed.

Lemma interleaving_elem_of (N : index_t) order (k : nat) :
  interleaving N order → k ∈ order ↔ (k < Z.to_nat N)%nat.
Proof. intros Hperm. by rewrite Hperm, in_order_elem_of. Qed.

(** [log_pdf()] in closed form, for every interleaving of its iterations:
    the hook values in test-point order, in the newly allocated buffer. *)
Lemma log_pdf_omp_values order mem e :
  interleaving (get_num_rhs e) order →
  log_pdf_omp hooks order mem e =
    (values ← log_pdf_values hooks e;
     Some {| vector := Ptr (fresh_address mem) values; vlen := get_num_rhs e |}).
Proof.
  intros Hperm. unfold log_pdf_omp, log_pdf_values.
  set (N := get_num_rhs e) in *.
  destruct (for_each _ order _) as [r'|] eqn:Hloop.
  - apply for_each_log_pdf_slots in Hloop as (Hlen & Haddr & Hcells & Hslots).
    simpl in *. unfold fresh_cells in Hcells, Hslots.
    rewrite length_fmap, length_seq in Hcells, Hslots.
    assert (mapM (λ i : nat, log_pdf_at e (Z.of_nat i)) (in_order N)
            = Some (pointee (vector r'))) as ->.
    { apply mapM_Some, Forall2_same_length_lookup_2.
      - unfold in_order. by rewrite length_seq.
      - intros k i v Hi Hv. apply lookup_seq in Hi as [-> Hk]. simpl.
        rewrite Hslots in Hv. rewrite decide_True in Hv; [done|].
        split; [|done]. by apply (interleaving_elem_of N). }
    simpl. destruct r' as [[a cells] n]; simpl in *. by subst.
  - assert (¬ is_Some (for_each (log_pdf_body hooks e) order (SGVector_new mem N)))
      as Hnone by (rewrite Hloop; by intros [??]).
    rewrite (for_each_is_Some _ (λ i, is_Some (log_pdf_at e (Z.of_nat i)))) in Hnone
      by (intros; apply log_pdf_body_is_Some).
    destruct (mapM _ (in_order N)) as [values|] eqn:Hvalues; [|done].
    exfalso. apply Hnone. rewrite Hperm.
    apply (mapM_is_Some_1 (λ i : nat, log_pdf_at e (Z.of_nat i))).
    by rewrite Hvalues.
Qed.
End BatchLogPdf.

Section BatchGrad.
Context {F : Float64} {K : Type} `{!KernelBase K}.
Context (hooks : Hooks K).

Implicit Types (e : Base K) (r : SGMatrix F).

Lemma grad_body_unchanged e D r i r' :
  grad_body hooks e D r i = Some r' → r' = r.
Proof. unfold grad_body. intros. by simplify_option_eq. Qed.

(** A new [D]-by-[N] matrix has all of column [i] in its buffer, for
    [i < N]. *)
Lemma SGMatrix_new_column_length mem (D N : index_t) (i : nat) :
  (i < Z.to_nat N)%nat →
  (Z.to_nat D ≤
     length (pointee (get_column_vector (SGMatrix_new mem D N) (Z.of_nat i))))%nat.
Proof.
  intros Hi. unfold get_column_vector, ptr_add, SGMatrix_new, fresh_cells. simpl.
  rewrite length_drop, length_fmap, length_seq.
  destruct (Z.le_gt_cases D 0) as [HD|HD].
  - replace (Z.to_nat D) with 0%nat by lia. lia.
  - replace (Z.to_nat (Z.of_nat i * D)) with (i * Z.to_nat D)%nat by lia. nia.
Qed.

Lemma grad_body_is_Some mem e (i : nat) :
  (i < Z.to_nat (get_num_rhs e))%nat →
  is_Some (grad_body hooks e (get_num_dimensions e)
             (SGMatrix_new mem (get_num_dimensions e) (get_num_rhs e)) i)
  ↔ grad_point_ok hooks e i.
Proof.
  intros Hi. unfold grad_body, grad_point_ok, memcpy.
  pose proof (SGMatrix_new_column_length mem (get_num_dimensions e) _ _ Hi).
  destruct (grad_at e (Z.of_nat i)) as [g|]; simpl.
  - case_decide as Hlen; simpl.
    + split; [intros _|by eauto]. exists g. split; [done|tauto].
    + split; [by intros [??]|]. intros (g' & [= <-] & Hg). tauto.
  - split; [by intros [??]|]. by intros (g & ? & _).
Qed.

(** The loop of [grad()] never assigns to [result]: what it returns, under
    every interleaving, is the matrix as it was allocated; it returns when
    every hook call does. *)
Lemma grad_omp_allocation order mem e r :
  grad_omp hooks order mem e = Some r →
  r = SGMatrix_new mem (get_num_dimensions e) (get_num_rhs e).
Proof.
  unfold grad_omp. apply for_each_unchanged. intros ???. apply grad_body_unchanged.
Qed.

Lemma for_each_grad_is_Some e D order r :
  is_Some (for_each (grad_body hooks e D) order r) ↔
  Forall (λ i, is_Some (grad_body hooks e D r i)) order.
Proof.
  induction order as [|i order IH]; simpl.
  - split; [constructor|eauto].
  - rewrite Forall_cons.
    destruct (grad_body hooks e D r i) as [r1|] eqn:Hi; simpl.
    + apply grad_body_unchanged in Hi as ->. rewrite IH. split; [eauto|tauto].
    + split; [by intros [??]|by intros [[??] _]].
Qed.

Lemma grad_omp_is_Some order mem e :
  interleaving (get_num_rhs e) order →
  is_Some (grad_omp hooks order mem e) ↔
  ∀ i, (i < Z.to_nat (get_num_rhs e))%nat → grad_point_ok hooks e i.
Proof.
  intros Hperm. unfold grad_omp. rewrite for_each_grad_is_Some, Forall_forall.
  split; intros Hall i Hi.
  - apply (grad_body_is_Some mem); [done|].
    apply Hall. by apply (interleaving_elem_of (get_num_rhs e)).
  - apply (interleaving_elem_of (get_num_rhs e)) in Hi; [|done].
    apply grad_body_is_Some; auto.
Qed.

Lemma grad_omp_result order mem e :
  interleaving (get_num_rhs e) order →
  (∀ i, (i < Z.to_nat (get_num_rhs e))%nat → grad_point_ok hooks e i) →
  grad_omp hooks order mem e
  = Some (SGMatrix_new mem (get_num_dimensions e) (get_num_rhs e)).
Proof.
  intros Hperm Hok. apply (grad_omp_is_Some order mem) in Hok as [r Hr]; [|done].
  rewrite Hr. f_equal. by apply grad_omp_allocation in Hr.
Qed.

(** Two interleavings give the same outcome. *)
Lemma grad_omp_interleavings order1 order2 mem e :
  interleaving (get_num_rhs e) order1 →
  interleaving (get_num_rhs e) order2 →
  grad_omp hooks order1 mem e = grad_omp hooks order2 mem e.
Proof.
  intros H1 H2.
  destruct (grad_omp hooks order1 mem e) as [r1|] eqn:Hr1.
  - assert (is_Some (grad_omp hooks order2 mem e)) as [r2 Hr2].
    { apply grad_omp_is_Some; [done|].
      apply (grad_omp_is_Some order1 mem); [done|]. by rewrite Hr1. }
    rewrite Hr2. apply grad_omp_allocation in Hr1, Hr2. congruence.
  - destruct (grad_omp hooks order2 mem e) as [r2|] eqn:Hr2; [|done].
    assert (is_Some (grad_omp hooks order1 mem e)) as [r1 Hr1'].
    { apply grad_omp_is_Some; [done|].
      apply (grad_omp_is_Some order2 mem); [done|]. by rewrite Hr2. }
    congruence.
Qed.
End BatchGrad.

(** ** Sums in exact arithmetic *)

Section ExactSums.
Context {F : Float64} `{!ExactSum F}.

Implicit Types (x y acc : float64_t) (l : list float64_t).

Lemma f64_add_0_r x : f64_add x f64_zero = x.
Proof. by rewrite f64_add_comm, f64_add_0_l. Qed.

Lemma foldl_f64_add acc l : foldl f64_add acc l = f64_add acc (sum l).
Proof.
  unfold sum. revert acc. induction l as [|x l IH]; intros acc; simpl.
  - by rewrite f64_add_0_r.
  - rewrite (IH (f64_add acc x)), (IH (f64_add f64_zero x)).
    by rewrite f64_add_0_l, f64_add_assoc.
Qed.

Lemma sum_cons x l : sum (x :: l) = f64_add x (sum l).
Proof. unfold sum at 1. simpl. by rewrite foldl_f64_add, f64_add_0_l. Qed.

Lemma sum_app l1 l2 : sum (l1 ++ l2) = f64_add (sum l1) (sum l2).
Proof.
  induction l1 as [|x l1 IH]; simpl.
  - change (sum []) with f64_zero. by rewrite f64_add_0_l.
  - by rewrite !sum_cons, IH, f64_add_assoc.
Qed.

Lemma sum_concat (ls : list (list float64_t)) : sum (sum <$> ls) = sum (concat ls).
Proof.
  induction ls as [|l ls IH]; [done|].
  change (concat (l :: ls)) with (l ++ concat ls).
  by rewrite fmap_cons, sum_cons, sum_app, IH.
Qed.

Lemma sum_permutation l1 l2 : l1 ≡ₚ l2 → sum l1 = sum l2.
Proof.
  induction 1 as [|x l1 l2 _ IH|x y l|l1 l2 l3 _ IH1 _ IH2].
  - done.
  - by rewrite !sum_cons, IH.
  - rewrite !sum_cons, !f64_add_assoc. f_equal. apply f64_add_comm.
  - congruence.
Qed.
End ExactSums.

Section Objective.
Context {F : Float64} {K : Type} `{!KernelBase K}.
Context (hooks : Hooks K).

Implicit Types (e : Base K).

Lemma objective_body_is_Some e acc i :
  is_Some (objective_body hooks e (get_num_dimensions e) acc i)
  ↔ is_Some (point_term hooks e i).
Proof.
  unfold objective_body, point_term.
  destruct (grad_at e (Z.of_nat i)) as [g|]; simpl; [|done].
  destruct (Map_VectorXd (vector g) _) as [eg|]; simpl; [|done].
  destruct (hessian_diag_at e (Z.of_nat i)) as [h|]; simpl; [|done].
  destruct (Map_VectorXd (vector h) _) as [eh|]; simpl; [|done].
  split; eauto.
Qed.

Lemma for_each_objective_is_Some e l acc :
  is_Some (for_each (objective_body hooks e (get_num_dimensions e)) l acc)
  ↔ Forall (λ i, is_Some (point_term hooks e i)) l.
Proof. apply for_each_is_Some. intros. apply objective_body_is_Some. Qed.

Lemma objective_is_Some e :
  is_Some (objective hooks e) ↔
  ∀ i, (i < Z.to_nat (get_num_rhs e))%nat → is_Some (point_term hooks e i).
Proof.
  unfold objective.
  destruct (for_each _ _ _) as [acc|] eqn:Hloop; simpl.
  - assert (is_Some (for_each (objective_body hooks e (get_num_dimensions e))
              (in_order (get_num_rhs e)) f64_zero)) as Hsome by (by rewrite Hloop).
    rewrite for_each_objective_is_Some, Forall_forall in Hsome.
    split; [|by eauto]. intros _ i Hi. by apply Hsome, in_order_elem_of.
  - split; [by intros [??]|]. intros Hall. exfalso.
    assert (is_Some (for_each (objective_body hooks e (get_num_dimensions e))
              (in_order (get_num_rhs e)) f64_zero)) as [? Hsome]; [|congruence].
    apply for_each_objective_is_Some, Forall_forall.
    intros i Hi. by apply Hall, in_order_elem_of.
Qed.

Lemma objective_body_summands e acc i :
  objective_body hooks e (get_num_dimensions e) acc i
  = (summands ← point_summands hooks e i; Some (foldl f64_add acc summands)).
Proof.
  unfold objective_body, point_summands.
  destruct (grad_at e (Z.of_nat i)) as [g|]; simpl; [|done].
  destruct (Map_VectorXd (vector g) _) as [eg|]; simpl; [|done].
  destruct (hessian_diag_at e (Z.of_nat i)) as [h|]; simpl; [|done].
  by destruct (Map_VectorXd (vector h) _) as [eh|].
Qed.

(** In any arithmetic, binary64 included, the loop as written adds the
    summands of the points from left to right, starting from [0.0]. *)
Lemma for_each_objective_summands e l acc :
  for_each (objective_body hooks e (get_num_dimensions e)) l acc
  = (summands ← mapM (point_summands hooks e) l;
     Some (foldl f64_add acc (concat summands))).
Proof.
  revert acc. induction l as [|i l IH]; intros acc; simpl; [done|].
  rewrite objective_body_summands.
  destruct (point_summands hooks e i) as [ss|]; simpl; [|done].
  rewrite IH. destruct (mapM _ l) as [sss|]; simpl; [|done].
  by rewrite foldl_app.
Qed.

Lemma objective_left_to_right e :
  objective hooks e
  = (summands ← mapM (point_summands hooks e) (in_order (get_num_rhs e));
     Some (f64_div (sum (concat summands)) (f64_of_index (get_num_rhs e)))).
Proof.
  unfold objective. rewrite for_each_objective_summands.
  by destruct (mapM _ _).
Qed.

Section Exact.
Context `{!ExactSum F}.

Lemma objective_body_term e acc i :
  objective_body hooks e (get_num_dimensions e) acc i
  = (term ← point_term hooks e i; Some (f64_add acc term)).
Proof.
  unfold objective_body, point_term.
  destruct (grad_at e (Z.of_nat i)) as [g|]; simpl; [|done].
  destruct (Map_VectorXd (vector g) _) as [eg|]; simpl; [|done].
  destruct (hessian_diag_at e (Z.of_nat i)) as [h|]; simpl; [|done].
  destruct (Map_VectorXd (vector h) _) as [eh|]; simpl; [|done].
  by rewrite f64_add_assoc.
Qed.

(** A run of iterations adds the sum of their terms to the accumulator. *)
Lemma for_each_objective_terms e l acc :
  for_each (objective_body hooks e (get_num_dimensions e)) l acc
  = (terms ← mapM (point_term hooks e) l; Some (f64_add acc (sum terms))).
Proof.
  revert acc. induction l as [|i l IH]; intros acc; simpl.
  - change (sum []) with f64_zero. by rewrite f64_add_0_r.
  - rewrite objective_body_term.
    destruct (point_term hooks e i) as [t|]; simpl; [|done].
    rewrite IH. destruct (mapM (point_term hooks e) l) as [ts|]; simpl; [|done].
    by rewrite sum_cons, f64_add_assoc.
Qed.

Lemma mapM_point_term_total e l :
  Forall (λ i, is_Some (point_term hooks e i)) l →
  mapM (point_term hooks e) l = Some ((λ i, default f64_zero (point_term hooks e i)) <$> l).
Proof.
  intros Hall. apply mapM_Some, Forall2_fmap_r, Forall_Forall2_diag.
  eapply Forall_impl; [done|]. intros i [t Ht]; simpl. by rewrite Ht.
Qed.

(** The reduction over the threads adds up the terms of all iterations. *)
Lemma for_each_reduction_terms e (threads : list (list nat)) :
  Forall (λ i, is_Some (point_term hooks e i)) (concat threads) →
  for_each_reduction (objective_body hooks e (get_num_dimensions e))
    threads f64_zero
  = Some (sum ((λ i, default f64_zero (point_term hooks e i)) <$> concat threads)).
Proof.
  intros Hall. unfold for_each_reduction.
  set (t := λ i, default f64_zero (point_term hooks e i)).
  assert (mapM (λ mine, for_each (objective_body hooks e (get_num_dimensions e))
                          mine f64_zero) threads
          = Some ((λ mine, sum (t <$> mine)) <$> threads)) as ->.
  { apply mapM_Some, Forall2_fmap_r, Forall_Forall2_diag, Forall_forall.
    intros mine Hmine. rewrite for_each_objective_terms.
    rewrite mapM_point_term_total; simpl.
    - by rewrite f64_add_0_l.
    - rewrite Forall_forall in Hall |- *. intros i Hi. apply Hall.
      apply elem_of_concat. eauto. }
  simpl. rewrite foldl_f64_add, f64_add_0_l. f_equal.
  clear Hall. induction threads as [|mine threads IH]; [done|].
  change (concat (mine :: threads)) with (mine ++ concat threads).
  by rewrite fmap_cons, sum_cons, fmap_app, sum_app, IH.
Qed.

Lemma for_each_reduction_None e (threads : list (list nat)) :
  ¬ Forall (λ i, is_Some (point_term hooks e i)) (concat threads) →
  for_each_reduction (objective_body hooks e (get_num_dimensions e))
    threads f64_zero = None.
Proof.
  intros Hnot. unfold for_each_reduction.
  destruct (mapM _ threads) as [privates|] eqn:Hprivates; [|done].
  exfalso. apply Hnot, Forall_forall. intros i (mine & Hi & Hmine)%elem_of_concat.
  assert (is_Some (for_each (objective_body hooks e (get_num_dimensions e))
                     mine f64_zero)) as Hsome.
  { assert (is_Some (mapM (λ mine, for_each (objective_body hooks e
              (get_num_dimensions e)) mine f64_zero) threads)) as Hall
      by (by rewrite Hprivates).
    apply mapM_is_Some_1 in Hall. rewrite Forall_forall in Hall.
    by apply (Hall mine). }
  rewrite for_each_objective_is_Some, Forall_forall in Hsome. auto.
Qed.

(** In exact arithmetic [objective()] is the mean of the per-point terms,
    however the iterations are distributed over the threads. *)
Lemma objective_omp_mean threads e :
  distribution (get_num_rhs e) threads →
  objective_omp hooks threads e = mean_point_term hooks e.
Proof.
  intros Hdist. unfold objective_omp, mean_point_term.
  destruct (decide (Forall (λ i, is_Some (point_term hooks e i)) (concat threads)))
    as [Hall|Hnot].
  - rewrite for_each_reduction_terms by done. simpl.
    rewrite mapM_point_term_total by (by rewrite <- Hdist). simpl.
    do 2 f_equal. apply sum_permutation. by rewrite Hdist.
  - rewrite for_each_reduction_None by done. simpl.
    destruct (mapM _ (in_order _)) as [terms|] eqn:Hterms; [|done].
    exfalso. apply Hnot. rewrite Hdist.
    apply (mapM_is_Some_1 (point_term hooks e)). by rewrite Hterms.
Qed.

Lemma objective_mean e : objective hooks e = mean_point_term hooks e.
Proof.
  unfold objective, mean_point_term. rewrite for_each_objective_terms.
  destruct (mapM _ _) as [terms|]; simpl; [|done].
  by rewrite f64_add_0_l.
Qed.
End Exact.
End Objective.

(** ** When the batch queries return *)

Section Returns.
Context {F : Float64} {K : Type} `{!KernelBase K} `{!JacobiSVD}.
Context (hooks : Hooks K).

Implicit Types (e : Base K).

Lemma log_pdf_omp_is_Some order mem e :
  interleaving (get_num_rhs e) order →
  is_Some (log_pdf_omp hooks order mem e) ↔
  ∀ i, (i < Z.to_nat (get_num_rhs e))%nat → is_Some (log_pdf_at e (Z.of_nat i)).
Proof.
  intros Hperm. rewrite log_pdf_omp_values by done. unfold log_pdf_values.
  transitivity (is_Some (mapM (λ i : nat, log_pdf_at e (Z.of_nat i))
                           (in_order (get_num_rhs e)))).
  - destruct (mapM _ _); simpl; [split; eauto|]. split; by intros [??].
  - rewrite mapM_is_Some, Forall_forall.
    split; intros Hall i Hi; apply Hall; by apply in_order_elem_of.
Qed.

Lemma for_each_reduction_is_Some e (threads : list (list nat)) :
  is_Some (for_each_reduction (objective_body hooks e (get_num_dimensions e))
             threads f64_zero)
  ↔ Forall (λ i, is_Some (point_term hooks e i)) (concat threads).
Proof.
  unfold for_each_reduction.
  transitivity (is_Some (mapM (λ mine, for_each (objective_body hooks e
                  (get_num_dimensions e)) mine f64_zero) threads)).
  - destruct (mapM _ _); simpl; [split; eauto|]. split; by intros [??].
  - rewrite mapM_is_Some, !Forall_forall. split.
    + intros Hall i (mine & Hi & Hmine)%elem_of_concat.
      specialize (Hall mine Hmine). simpl in Hall.
      rewrite for_each_objective_is_Some, Forall_forall in Hall. auto.
    + intros Hall mine Hmine. simpl.
      apply for_each_objective_is_Some, Forall_forall.
      intros i Hi. apply Hall, elem_of_concat. eauto.
Qed.

Lemma objective_omp_is_Some threads e :
  distribution (get_num_rhs e) threads →
  is_Some (objective_omp hooks threads e) ↔
  ∀ i, (i < Z.to_nat (get_num_rhs e))%nat → is_Some (point_term hooks e i).
Proof.
  intros Hdist. unfold objective_omp.
  transitivity (is_Some (for_each_reduction (objective_body hooks e
                  (get_num_dimensions e)) threads f64_zero)).
  - destruct (for_each_reduction _ _ _); simpl; [split; eauto|].
    split; by intros [??].
  - rewrite for_each_reduction_is_Some, Hdist, Forall_forall.
    split; intros Hall i Hi; apply Hall; by apply in_order_elem_of.
Qed.

Lemma never_fitted_alpha_beta e :
  never_fitted e → m_alpha_beta e = SGVector_empty.
Proof.
  intros (data & kernel & lambda & calls & ->).
  by destruct (do_calls_frame (Base_new data kernel lambda) calls) as (_ & _ & ->).
Qed.

End Returns.

(** ** No test points *)

Section NoIterations.
Context {F : Float64}.

Lemma for_each_reduction_no_iterations
    (body : float64_t → nat → option float64_t) (threads : list (list nat)) :
  concat threads = [] →
  for_each_reduction body threads f64_zero
  = Some (foldl f64_add f64_zero (replicate (length threads) f64_zero)).
Proof.
  intros Hnil. unfold for_each_reduction.
  assert (mapM (λ mine, for_each body mine f64_zero) threads
          = Some (replicate (length threads) f64_zero)) as ->; [|done].
  induction threads as [|mine threads IH]; [done|].
  simpl in Hnil. apply app_eq_nil in Hnil as [-> Hnil].
  simpl. by rewrite (IH Hnil).
Qed.
End NoIterations.

Lemma binary64_zeros_add (n : nat) :
  foldl (f64_add (Float64 := binary64)) 0%float (replicate n 0%float) = 0%float.
Proof. induction n as [|n IH]; [done|]. simpl. exact IH. Qed.

(** ** The data store and the fit *)

Section StoreAndFit.
Context {F : Float64} {K : Type} `{!KernelBase K} `{!JacobiSVD}.
Context (hooks : Hooks K).

Implicit Types (e : Base K) (X A : SGMatrix F) (b : SGVector F).

(** C4. [is_test_equals_train_data] is a check of storage identity: it holds
    exactly when the test matrix has the address of the training matrix and
    the same numbers of rows and columns.  So it holds right after
    construction and after [reset_test_data]; and after [set_test_data] with a
    matrix [X] whose buffer is not the training buffer (a newly allocated
    one) it fails, whatever the cells of [X] hold, the numbers of the
    training matrix included. *)
Theorem is_test_equals_train_data_storage_identity
    (data : SGMatrix F) (kernel : K) (lambda : float64_t) e X :
  address (matrix X) ≠ address (matrix (m_lhs e)) →
  (is_test_equals_train_data e = true ↔
     address (matrix (m_rhs e)) = address (matrix (m_lhs e)) ∧
     num_rows (m_rhs e) = num_rows (m_lhs e) ∧
     num_cols (m_rhs e) = num_cols (m_lhs e)) ∧
  is_test_equals_train_data (Base_new data kernel lambda) = true ∧
  is_test_equals_train_data (reset_test_data e) = true ∧
  is_test_equals_train_data (set_test_data e X) = false.
Proof.
  intros Hfresh. split_and!.
  - apply is_test_equals_train_data_true.
  - by apply is_test_equals_train_data_same.
  - by apply is_test_equals_train_data_same.
  - apply not_true_is_false. intros [Haddr _]%is_test_equals_train_data_true.
    by apply Hfresh.
Qed.


(** C7. [reset_test_data()] is [set_test_data(m_lhs)]: afterwards the test
    matrix is the training matrix.  On an estimator whose test data was never
    set, resetting, also after any test data was set in between, gives the
    estimator back, and [log_pdf()] returns what it returned before. *)
Theorem reset_test_data_restores_training `{!KernelMirrorsOperands K}
    mem (e0 e : Base K) (calls : list test_data_call) :
  test_data_never_set hooks e →
  (reset_test_data e0 = set_test_data e0 (m_lhs e0) ∧
   m_rhs (reset_test_data e0) = m_lhs e0 ∧
   is_test_equals_train_data (reset_test_data e0) = true) ∧
  reset_test_data (do_calls e calls) = e ∧
  log_pdf hooks mem (reset_test_data (do_calls e calls)) = log_pdf hooks mem e.
Proof.
  intros Hnever. split_and!; try done.
  - by apply is_test_equals_train_data_same.
  - by eapply reset_after_calls.
  - by erewrite reset_after_calls.
Qed.

(** C9. [set_test_data(X)] assigns [m_rhs] and hands [X] to the kernel, which
    precomputes; the training matrix, [lambda] and the coefficients are as
    before, and stay so over any sequence of [set_test_data] and
    [reset_test_data] calls. *)
Theorem set_test_data_frame e X (calls : list test_data_call) :
  (m_rhs (set_test_data e X) = X ∧
   m_kernel (set_test_data e X) = precompute (set_rhs X (m_kernel e)) ∧
   m_lhs (set_test_data e X) = m_lhs e ∧
   m_lambda (set_test_data e X) = m_lambda e ∧
   m_alpha_beta (set_test_data e X) = m_alpha_beta e) ∧
  (m_lhs (do_calls e calls) = m_lhs e ∧
   m_lambda (do_calls e calls) = m_lambda e ∧
   m_alpha_beta (do_calls e calls) = m_alpha_beta e).
Proof. split; [done|]. apply do_calls_frame. Qed.
End StoreAndFit.

(** ** The batch queries *)

Section Queries.
Context {F : Float64} {K : Type} `{!KernelBase K} `{!JacobiSVD}.
Context (hooks : Hooks K).

Implicit Types (e : Base K).

(** C6. When the hook [log_pdf(i)] returns at every test point, [log_pdf()]
    returns a vector of exactly [N_test] entries, and entry [i] is the value
    of [log_pdf(i)]: the output follows the order of the test points, in
    whatever order the iterations ran. *)
Theorem log_pdf_batch_entries order mem e :
  interleaving (get_num_rhs e) order →
  (∀ i, 0 ≤ i < get_num_rhs e → is_Some (log_pdf_at e i)) →
  ∃ result, log_pdf_omp hooks order mem e = Some result ∧
    vlen result = get_num_rhs e ∧
    length (pointee (vector result)) = Z.to_nat (get_num_rhs e) ∧
    ∀ i, 0 ≤ i < get_num_rhs e →
         pointee (vector result) !! Z.to_nat i = log_pdf_at e i.
Proof.
  intros Hperm Hall. rewrite log_pdf_omp_values by done.
  assert (is_Some (log_pdf_values hooks e)) as [values Hvalues].
  { apply mapM_is_Some, Forall_forall. intros i Hi%in_order_elem_of.
    apply Hall. lia. }
  rewrite Hvalues. simpl. eexists. split; [done|]. simpl.
  pose proof (length_mapM _ _ _ Hvalues) as Hlen.
  unfold in_order in Hlen. rewrite length_seq in Hlen.
  split_and!; try done. intros i Hi.
  apply mapM_Some_1 in Hvalues.
  destruct (Forall2_lookup_l _ _ _ (Z.to_nat i) (Z.to_nat i) Hvalues)
    as (v & Hv & Hhook).
  { apply lookup_seq. lia. }
  rewrite Z2Nat.id in Hhook by lia. congruence.
Qed.

(** X15. Under every interleaving of its iterations [log_pdf()] returns what
    the loop as written returns, cell for cell, whatever the two allocations
    held before: every iteration assigns the slot of its own index, and every
    slot is assigned. *)
Theorem log_pdf_parallel_equals_sequential order mem mem' e :
  interleaving (get_num_rhs e) order →
  (pointee ∘ vector) <$> log_pdf_omp hooks order mem e
    = (pointee ∘ vector) <$> log_pdf hooks mem' e ∧
  vlen <$> log_pdf_omp hooks order mem e = vlen <$> log_pdf hooks mem' e.
Proof.
  intros Hperm.
  assert (interleaving (get_num_rhs e) (in_order (get_num_rhs e))) as Hseq
    by (unfold interleaving; reflexivity).
  unfold log_pdf. rewrite !log_pdf_omp_values by done.
  by destruct (log_pdf_values hooks e).
Qed.

(** C3. In exact arithmetic, where a sum does not depend on the order of its
    terms, [objective()] is the mean over the test points of
    [0.5·‖grad(i)‖² + sum(hessian_diag(i))]: the sum of the terms divided by
    [N_test], both for the loop as written and for its reduction over any
    distribution of the iterations to threads; and it returns whenever the
    hooks return vectors of [D] entries at every test point. *)
Theorem objective_mean_of_point_terms `{!ExactSum F} threads e :
  distribution (get_num_rhs e) threads →
  (∀ i, (i < Z.to_nat (get_num_rhs e))%nat → is_Some (point_term hooks e i)) →
  ∃ terms, mapM (point_term hooks e) (in_order (get_num_rhs e)) = Some terms ∧
    length terms = Z.to_nat (get_num_rhs e) ∧
    objective hooks e = Some (f64_div (sum terms) (f64_of_index (get_num_rhs e))) ∧
    objective_omp hooks threads e
      = Some (f64_div (sum terms) (f64_of_index (get_num_rhs e))).
Proof.
  intros Hdist Hall.
  assert (is_Some (mapM (point_term hooks e) (in_order (get_num_rhs e))))
    as [terms Hterms].
  { apply mapM_is_Some, Forall_forall. intros i Hi%in_order_elem_of. by apply Hall. }
  exists terms. split_and!; try done.
  - apply length_mapM in Hterms. unfold in_order in Hterms.
    by rewrite length_seq in Hterms.
  - rewrite (objective_mean hooks e). unfold mean_point_term. by rewrite Hterms.
  - rewrite (objective_omp_mean hooks threads e Hdist). unfold mean_point_term.
    by rewrite Hterms.
Qed.

(** C2, as the code has it.  On an estimator on which [fit()] was never
    called the coefficients are the empty vector, and the batch queries do
    not look: each returns exactly when the hook calls it makes return (for
    [grad(i)] and [hessian_diag(i)], with vectors of at least [D] cells). *)
Theorem unfitted_queries_follow_hooks order threads mem e :
  never_fitted e →
  interleaving (get_num_rhs e) order →
  distribution (get_num_rhs e) threads →
  m_alpha_beta e = SGVector_empty ∧
  (is_Some (log_pdf_omp hooks order mem e) ↔
     ∀ i, (i < Z.to_nat (get_num_rhs e))%nat → is_Some (log_pdf_at e (Z.of_nat i))) ∧
  (is_Some (grad_omp hooks order mem e) ↔
     ∀ i, (i < Z.to_nat (get_num_rhs e))%nat → grad_point_ok hooks e i) ∧
  (is_Some (objective hooks e) ↔
     ∀ i, (i < Z.to_nat (get_num_rhs e))%nat → is_Some (point_term hooks e i)) ∧
  (is_Some (objective_omp hooks threads e) ↔
     ∀ i, (i < Z.to_nat (get_num_rhs e))%nat → is_Some (point_term hooks e i)).
Proof.
  intros Hnever Hperm Hdist. split_and!.
  - by apply never_fitted_alpha_beta.
  - by apply log_pdf_omp_is_Some.
  - by apply grad_omp_is_Some.
  - apply objective_is_Some.
  - by apply objective_omp_is_Some.
Qed.
End Queries.

(** C10. With no test points, [objective()] divides the untouched accumulator
    [0.0] by [N_test = 0] converted to double: it returns the quotient
    [0.0 / 0.0], a NaN, and raises nothing. *)
Theorem objective_no_test_points {K : Type} `{!KernelBase (F := binary64) K}
    (hooks : Hooks (F := binary64) K) threads (e : Base K) :
  get_num_rhs e = 0 →
  distribution (get_num_rhs e) threads →
  objective hooks e = Some (0 / 0)%float ∧
  objective_omp hooks threads e = Some (0 / 0)%float ∧
  PrimFloat.is_nan (0 / 0) = true.
Proof.
  intros HN Hdist. unfold distribution in Hdist. unfold objective, objective_omp.
  rewrite HN in *. split_and!; [done| |done].
  apply Permutation_nil_r in Hdist.
  rewrite for_each_reduction_no_iterations by done. simpl.
  by rewrite binary64_zeros_add.
Qed.
(** ** Points as views of the buffers *)

Lemma concat_strided_takes {A : Type} (d n : nat) (buf : list A) :
  length buf = (n * d)%nat →
  concat ((λ i, take d (drop (i * d) buf)) <$> seq 0 n) = buf.
Proof.
  revert buf. induction n as [|n IH]; intros buf Hlen.
  - by destruct buf.
  - change (seq 0 (S n)) with (0%nat :: seq 1 n).
    rewrite fmap_cons, <- fmap_S_seq, <- list_fmap_compose.
    change (concat (?x :: ?l)) with (x ++ concat l). simpl.
    transitivity (take d buf ++ drop d buf); [|apply take_drop]. f_equal.
    rewrite <- (IH (drop d buf)) by (rewrite length_drop; lia).
    f_equal. apply list_fmap_ext. intros _ i _. simpl.
    by rewrite drop_drop.
Qed.

Section Points.
Context {F : Float64} {K : Type} `{!KernelBase K}.

Implicit Types (e : Base K) (X : SGMatrix F).

Lemma get_column_vector_pointee X (i : nat) :
  pointee (get_column_vector X (Z.of_nat i))
  = drop (i * Z.to_nat (num_rows X)) (pointee (matrix X)).
Proof.
  unfold get_column_vector, ptr_add. simpl. f_equal.
  destruct (Z.le_gt_cases (num_rows X) 0).
  - replace (Z.to_nat (num_rows X)) with 0%nat by lia. lia.
  - lia.
Qed.

(** X1. When the buffers hold what the dimensions declare and the test matrix
    has as many rows as the training matrix, the points returned by
    [get_lhs_point] and [get_rhs_point] are consecutive, non-overlapping
    views that together make up the buffer: point [i] starts [8·i·D] bytes
    into it and has its [D] cells inside it. *)
Theorem points_tile_buffers e :
  length (pointee (matrix (m_lhs e)))
    = (Z.to_nat (get_num_lhs e) * Z.to_nat (get_num_dimensions e))%nat →
  length (pointee (matrix (m_rhs e)))
    = (Z.to_nat (get_num_rhs e) * Z.to_nat (get_num_dimensions e))%nat →
  num_rows (m_rhs e) = get_num_dimensions e →
  concat ((λ i : nat, let x := get_lhs_point e (Z.of_nat i) in
                       take (Z.to_nat (vlen x)) (pointee (vector x)))
            <$> in_order (get_num_lhs e))
    = pointee (matrix (m_lhs e)) ∧
  concat ((λ i : nat, let x := get_rhs_point e (Z.of_nat i) in
                       take (Z.to_nat (vlen x)) (pointee (vector x)))
            <$> in_order (get_num_rhs e))
    = pointee (matrix (m_rhs e)) ∧
  ∀ i, 0 ≤ i < get_num_rhs e →
    address (vector (get_rhs_point e i))
      = address (matrix (m_rhs e)) + 8 * (i * get_num_dimensions e) ∧
    (Z.to_nat (vlen (get_rhs_point e i))
       ≤ length (pointee (vector (get_rhs_point e i))))%nat.
Proof.
  intros Hlhs Hrhs Hrows. split_and!.
  - etrans; [|apply (concat_strided_takes _ _ _ Hlhs)]. unfold in_order.
    f_equal. apply list_fmap_ext. intros _ i _.
    unfold get_lhs_point; cbn [vector vlen].
    by rewrite get_column_vector_pointee.
  - etrans; [|apply (concat_strided_takes _ _ _ Hrhs)]. unfold in_order.
    f_equal. apply list_fmap_ext. intros _ i _.
    unfold get_rhs_point; cbn [vector vlen].
    by rewrite get_column_vector_pointee, Hrows.
  - intros i Hi. unfold get_rhs_point; cbn [vector vlen]. split.
    { unfold get_column_vector, ptr_add. simpl. by rewrite Hrows. }
    rewrite <- (Z2Nat.id i) by lia.
    rewrite get_column_vector_pointee, length_drop, Hrhs, Hrows.
    assert (Z.to_nat i < Z.to_nat (get_num_rhs e))%nat by lia. nia.
Qed.

(** X2. [set_test_data] takes a matrix with fewer rows than the training
    matrix as it is, and [get_rhs_point] then strides by the rows of the test
    matrix but gives each point the length of a training point: the view of
    the last test point claims more cells than are left in the buffer. *)
Theorem get_rhs_point_past_the_end e X :
  0 ≤ num_rows X < get_num_dimensions e →
  1 ≤ num_cols X →
  length (pointee (matrix X)) = (Z.to_nat (num_cols X) * Z.to_nat (num_rows X))%nat →
  let e' := set_test_data e X in
  let last := get_rhs_point e' (get_num_rhs e' - 1) in
  vlen last = get_num_dimensions e ∧
  length (pointee (vector last)) = Z.to_nat (num_rows X) ∧
  (length (pointee (vector last)) < Z.to_nat (vlen last))%nat.
Proof.
  intros Hrows Hcols Hlen. unfold get_rhs_point; cbn [vector vlen].
  replace (get_num_rhs (set_test_data e X) - 1)
    with (Z.of_nat (Z.to_nat (num_cols X) - 1)) by (unfold get_num_rhs; simpl; lia).
  rewrite get_column_vector_pointee. simpl. rewrite length_drop, Hlen.
  unfold get_num_dimensions in *. simpl.
  assert ((Z.to_nat (num_cols X) * Z.to_nat (num_rows X)
           - (Z.to_nat (num_cols X) - 1) * Z.to_nat (num_rows X))%nat
          = Z.to_nat (num_rows X)) as -> by nia.
  split_and!; [done|done|lia].
Qed.
End Points.

(** ** What the batch queries take from the hooks *)

Section TwoEstimators.
Context {F : Float64} {K : Type} `{!KernelBase K}.
Context (hooks1 hooks2 : Hooks K).

Implicit Types (e : Base K).

(** X3. [grad()] takes nothing from [grad(i)]: two estimators that differ in
    their gradients, run in any two orders, return the same matrix, which is
    the [D]-by-[N_test] matrix as it was allocated. *)
Theorem grad_takes_nothing_from_hook order1 order2 mem e :
  interleaving (get_num_rhs e) order1 →
  interleaving (get_num_rhs e) order2 →
  (∀ i, (i < Z.to_nat (get_num_rhs e))%nat → grad_point_ok hooks1 e i) →
  (∀ i, (i < Z.to_nat (get_num_rhs e))%nat → grad_point_ok hooks2 e i) →
  grad_omp hooks1 order1 mem e = grad_omp hooks2 order2 mem e ∧
  grad_omp hooks1 order1 mem e
    = Some (SGMatrix_new mem (get_num_dimensions e) (get_num_rhs e)).
Proof.
  intros Hperm1 Hperm2 Hok1 Hok2.
  by rewrite (grad_omp_result hooks1), (grad_omp_result hooks2).
Qed.

Lemma objective_body_views e acc i :
  (grad_at (Hooks := hooks1) e (Z.of_nat i)
     ≫= λ g, Map_VectorXd (vector g) (get_num_dimensions e))
  = (grad_at (Hooks := hooks2) e (Z.of_nat i)
     ≫= λ g, Map_VectorXd (vector g) (get_num_dimensions e)) →
  (hessian_diag_at (Hooks := hooks1) e (Z.of_nat i)
     ≫= λ h, Map_VectorXd (vector h) (get_num_dimensions e))
  = (hessian_diag_at (Hooks := hooks2) e (Z.of_nat i)
     ≫= λ h, Map_VectorXd (vector h) (get_num_dimensions e)) →
  objective_body hooks1 e (get_num_dimensions e) acc i
  = objective_body hooks2 e (get_num_dimensions e) acc i.
Proof.
  intros Hg Hh. unfold objective_body.
  destruct (grad_at (Hooks := hooks1) e (Z.of_nat i)) as [g1|],
           (grad_at (Hooks := hooks2) e (Z.of_nat i)) as [g2|]; simpl in *.
  - rewrite Hg. destruct (Map_VectorXd (vector g2) _); simpl; [|done].
    destruct (hessian_diag_at (Hooks := hooks1) e (Z.of_nat i)) as [h1|],
             (hessian_diag_at (Hooks := hooks2) e (Z.of_nat i)) as [h2|];
      simpl in *; try by rewrite Hh.
    + by rewrite <- Hh.
    + done.
  - by rewrite Hg.
  - by rewrite <- Hg.
  - done.
Qed.

(** X4. [objective()] reads the [D] first cells at the pointers of the
    vectors returned by [grad(i)] and [hessian_diag(i)], whatever their
    [vlen]: two estimators whose vectors agree on these cells at every test
    point have the same objective, and further cells are not looked at. *)
Theorem objective_reads_first_cells (threads : list (list nat)) e :
  (∀ i, (i < Z.to_nat (get_num_rhs e))%nat →
     (grad_at (Hooks := hooks1) e (Z.of_nat i)
        ≫= λ g, Map_VectorXd (vector g) (get_num_dimensions e))
     = (grad_at (Hooks := hooks2) e (Z.of_nat i)
        ≫= λ g, Map_VectorXd (vector g) (get_num_dimensions e)) ∧
     (hessian_diag_at (Hooks := hooks1) e (Z.of_nat i)
        ≫= λ h, Map_VectorXd (vector h) (get_num_dimensions e))
     = (hessian_diag_at (Hooks := hooks2) e (Z.of_nat i)
        ≫= λ h, Map_VectorXd (vector h) (get_num_dimensions e))) →
  distribution (get_num_rhs e) threads →
  objective hooks1 e = objective hooks2 e ∧
  objective_omp hooks1 threads e = objective_omp hooks2 threads e.
Proof.
  intros Hagree Hdist.
  assert (∀ l acc, Forall (λ i, (i < Z.to_nat (get_num_rhs e))%nat) l →
            for_each (objective_body hooks1 e (get_num_dimensions e)) l acc
            = for_each (objective_body hooks2 e (get_num_dimensions e)) l acc)
    as Hloop.
  { induction l as [|i l IH]; intros acc Hl; [done|].
    apply Forall_cons in Hl as [Hi Hl]. simpl.
    destruct (Hagree i Hi) as [Hg Hh].
    rewrite (objective_body_views e acc i Hg Hh).
    destruct (objective_body hooks2 e _ acc i); simpl; [by apply IH|done]. }
  split.
  - unfold objective. rewrite Hloop; [done|].
    apply Forall_forall. intros i. apply in_order_elem_of.
  - unfold objective_omp, for_each_reduction.
    erewrite (Forall_mapM_ext _ _ threads); [done|].
    apply Forall_forall. intros mine Hmine. apply Hloop, Forall_forall.
    intros i Hi. apply in_order_elem_of. unfold distribution in Hdist.
    rewrite <- Hdist. apply elem_of_concat. eauto.
Qed.
End TwoEstimators.

(** ** Whole lives *)

Section Lives.
Context {F : Float64} {K : Type} `{!KernelBase K} `{!JacobiSVD}.
Context (hooks : Hooks K).

Implicit Types (e : Base K) (X : SGMatrix F).

Lemma do_call_rhs e c :
  m_rhs (do_call e c) = last_test_data (m_lhs e) (m_rhs e) [call_test_data c].
Proof. by destruct c. Qed.

Lemma run_data_store e calls e' :
  run hooks e calls = Some e' →
  m_lhs e' = m_lhs e ∧ m_lambda e' = m_lambda e ∧
  m_rhs e' = last_test_data (m_lhs e) (m_rhs e) calls.
Proof.
  revert e. induction calls as [|c calls IH]; intros e; simpl.
  - by intros [= <-].
  - destruct c as [mem|c]; simpl.
    + destruct (fit hooks mem e) as [e1|] eqn:Hfit; simpl; [|done].
      apply fit_frame in Hfit as (Hl & Hr & _ & Hla).
      intros (-> & -> & ->)%IH. by rewrite Hl, Hr, Hla.
    + intros (-> & -> & ->)%IH.
      destruct (do_call_frame e c) as (-> & -> & _). split_and!; try done.
      by destruct c.
Qed.

Lemma run_kernel_precomputed e calls e' :
  (∃ k, m_kernel e = precompute (set_rhs (m_rhs e) k)) →
  run hooks e calls = Some e' →
  ∃ k, m_kernel e' = precompute (set_rhs (m_rhs e') k).
Proof.
  revert e. induction calls as [|c calls IH]; intros e Hk; simpl.
  - by intros [= <-].
  - destruct c as [mem|c]; simpl.
    + destruct (fit hooks mem e) as [e1|] eqn:Hfit; simpl; [|done].
      apply fit_frame in Hfit as (_ & Hr & Hke & _).
      apply IH. by rewrite Hr, Hke.
    + apply IH. destruct c; by eexists.
Qed.

(** X5. Over the whole life of an estimator, whatever is fitted and whatever
    test data is set or reset: the training matrix and [lambda] are the ones
    given to the constructor, so [get_num_dimensions] and [get_num_lhs] are
    the rows and columns of that matrix; the test matrix is the one that the
    last test-data call set (the training matrix, if there was none or it was
    a reset); and the aliasing flag says whether that matrix is the training
    buffer with the training dimensions. *)
Theorem lifetime_of_data_store (data : SGMatrix F) (kernel : K) (lambda : float64_t)
    (calls : list call) e :
  run hooks (Base_new data kernel lambda) calls = Some e →
  m_lhs e = data ∧ m_lambda e = lambda ∧
  get_num_dimensions e = num_rows data ∧ get_num_lhs e = num_cols data ∧
  m_rhs e = last_test_data data data calls ∧
  (is_test_equals_train_data e = true ↔
     address (matrix (last_test_data data data calls)) = address (matrix data) ∧
     num_rows (last_test_data data data calls) = num_rows data ∧
     num_cols (last_test_data data data calls) = num_cols data).
Proof.
  intros (Hl & Hla & Hr)%run_data_store. simpl in *.
  unfold get_num_dimensions, get_num_lhs. rewrite Hl.
  split_and!; try done.
  by rewrite is_test_equals_train_data_true, Hl, Hr.
Qed.

(** X6. The kernel is never left stale: after the constructor and after any
    sequence of fits and test-data calls, the last thing that happened to the
    kernel is a [precompute] following [set_rhs] with the current test
    matrix. *)
Theorem kernel_never_stale (data : SGMatrix F) (kernel : K) (lambda : float64_t)
    (calls : list call) e :
  run hooks (Base_new data kernel lambda) calls = Some e →
  ∃ k, m_kernel e = precompute (set_rhs (m_rhs e) k).
Proof. apply run_kernel_precomputed. by eexists. Qed.

(** X7. A system assembler that does not read the coefficients makes a
    second [fit()] reproduce the first: the second fit succeeds, makes a new
    vector in whatever buffer it is allocated, and stores in it the same
    cells and the same length as the first fit stored; everything else is as
    the first fit left it. *)
Theorem fit_again mem mem' e e' :
  (∀ e0 alpha_beta, build_system (with_alpha_beta e0 alpha_beta) = build_system e0) →
  fit hooks mem e = Some e' →
  ∃ e'', fit hooks mem' e' = Some e'' ∧
    pointee (vector (m_alpha_beta e'')) = pointee (vector (m_alpha_beta e')) ∧
    vlen (m_alpha_beta e'') = vlen (m_alpha_beta e') ∧
    address (vector (m_alpha_beta e'')) = fresh_address mem' ∧
    m_lhs e'' = m_lhs e' ∧ m_rhs e'' = m_rhs e' ∧
    m_kernel e'' = m_kernel e' ∧ m_lambda e'' = m_lambda e'.
Proof.
  intros Hreads Hfit.
  assert (e' = with_alpha_beta e (m_alpha_beta e')) as Heq.
  { apply fit_frame in Hfit as (Hl & Hr & Hk & Hla).
    unfold with_alpha_beta. rewrite <- Hl, <- Hr, <- Hk, <- Hla. by destruct e'. }
  assert (build_system e' = build_system e) as Hsys
    by (rewrite Heq; apply Hreads).
  clear Heq. unfold fit, solve_and_store in *. rewrite Hsys.
  destruct (build_system e) as [[A b]|]; simpl in *; [|done].
  destruct (Map_MatrixXd _ _ _) as [eigen_A|]; simpl in *; [|done].
  destruct (Map_VectorXd _ _) as [eigen_b|]; simpl in *; [|done].
  unfold Map_assign in *. simpl in *.
  unfold fresh_cells in *. rewrite length_fmap, length_seq in *.
  case_decide as Hlen; simpl in *; [|done].
  injection Hfit as <-. simpl. eexists. by split_and!.
Qed.

(** X8. [fit()] does not check the shape of the system.  With a solver that
    returns one entry per column of the matrix, a system with a number of
    columns other than the length of [b] has a solution that does not fit the
    vector made for it: the fit has no defined result. *)
Theorem fit_system_not_square mem e (A : SGMatrix F) (b : SGVector F) :
  (∀ options M v, length (JacobiSVD_solve options M v) = Z.to_nat (cols M)) →
  build_system e = Some (A, b) →
  Z.to_nat (num_cols A) ≠ Z.to_nat (vlen b) →
  fit hooks mem e = None.
Proof.
  intros Hsize Hsys Hshape. unfold fit, solve_and_store. rewrite Hsys. simpl.
  unfold Map_MatrixXd.
  destruct (Map_VectorXd (matrix A) _) as [coeffs_A|]; simpl; [|done].
  destruct (Map_VectorXd (vector b) _) as [eigen_b|]; simpl; [|done].
  unfold Map_assign. rewrite decide_False; [done|].
  rewrite Hsize. simpl. unfold fresh_cells. by rewrite length_fmap, length_seq.
Qed.

(** X9. A system assembler that does not read the test side makes [fit()]
    commute with [set_test_data]: it does not matter whether the test data
    is set before or after the fit. *)
Theorem fit_commutes_with_set_test_data mem e X :
  build_system (set_test_data e X) = build_system e →
  fit hooks mem (set_test_data e X)
  = (λ e', set_test_data e' X) <$> fit hooks mem e.
Proof.
  intros Hreads. unfold fit, solve_and_store. rewrite Hreads.
  destruct (build_system e) as [[A b]|]; simpl; [|done].
  destruct (Map_MatrixXd _ _ _) as [eigen_A|]; simpl; [|done].
  destruct (Map_VectorXd _ _) as [eigen_b|]; simpl; [|done].
  by destruct (Map_assign _ _) as [stored|].
Qed.

End Lives.

(** ** Estimators and the kernels they point to *)

Section KernelOwnership.
Context {F : Float64} {K : Type} `{!KernelBase K}.

Implicit Types (heap : gmap Z K) (h : Base Z) (X : SGMatrix F).

(** X10. The constructor keeps the kernel pointer it is given, and copies
    nothing.  A call of [set_test_data] on one estimator changes the kernel
    object itself: an estimator built on the same pointer finds the kernel
    precomputed against that test matrix, though its own [m_rhs] has not
    changed; estimators on other kernels find theirs as they left them. *)
Theorem kernel_shared_through_pointer heap h1 h2 X (k : K) :
  heap !! m_kernel h1 = Some k →
  ∃ heap' h1',
    set_test_data_at heap h1 X = Some (heap', h1') ∧
    m_kernel h1' = m_kernel h1 ∧ m_rhs h1' = X ∧
    heap' !! m_kernel h2
      = (if decide (m_kernel h2 = m_kernel h1)
         then Some (precompute (set_rhs X k))
         else heap !! m_kernel h2).
Proof.
  intros Hk. unfold set_test_data_at, through_kernel. rewrite Hk. simpl.
  eexists _, _. split_and!; try done.
  case_decide as Hsame.
  - by rewrite Hsame, lookup_insert_eq.
  - by rewrite lookup_insert_ne.
Qed.

(** X11. Two estimators constructed on the same kernel pointer both delete
    it: once the first is destroyed, the destructor of the second, and any
    call that reaches the kernel through the second, has no defined
    result. *)
Theorem shared_kernel_deleted_twice heap h1 h2 X (k : K) :
  m_kernel h1 ≠ 0 →
  m_kernel h2 = m_kernel h1 →
  heap !! m_kernel h1 = Some k →
  ∃ heap', Base_delete heap h1 = Some heap' ∧
    heap' !! m_kernel h2 = None ∧
    Base_delete heap' h2 = None ∧
    set_test_data_at heap' h2 X = None ∧
    reset_test_data_at heap' h2 = None.
Proof.
  intros Hnull Hsame Hk. exists (delete (m_kernel h1) heap).
  unfold Base_delete, set_test_data_at, reset_test_data_at, through_kernel.
  rewrite !decide_False by congruence. rewrite Hk, Hsame, lookup_delete_eq.
  by split_and!.
Qed.

(** X12. Estimators on different kernels are destroyed independently: in
    either order both destructors succeed, the two kernels are gone and
    every other kernel is untouched. *)
Theorem distinct_kernels_deleted_once heap h1 h2 (k1 k2 : K) :
  m_kernel h1 ≠ m_kernel h2 →
  m_kernel h1 ≠ 0 → m_kernel h2 ≠ 0 →
  heap !! m_kernel h1 = Some k1 →
  heap !! m_kernel h2 = Some k2 →
  (Base_delete heap h1 ≫= λ heap', Base_delete heap' h2)
    = Some (delete (m_kernel h2) (delete (m_kernel h1) heap)) ∧
  (Base_delete heap h2 ≫= λ heap', Base_delete heap' h1)
    = Some (delete (m_kernel h2) (delete (m_kernel h1) heap)) ∧
  ∀ p, delete (m_kernel h2) (delete (m_kernel h1) heap) !! p
       = (if decide (p = m_kernel h1 ∨ p = m_kernel h2) then None else heap !! p).
Proof.
  intros Hne Hn1 Hn2 Hk1 Hk2. unfold Base_delete.
  rewrite !decide_False by done. rewrite Hk1, Hk2. simpl.
  rewrite !decide_False by done.
  rewrite !lookup_delete_ne, Hk1, Hk2 by done. simpl.
  split_and!; [done|by rewrite delete_delete|].
  intros p. case_decide as Hp.
  - destruct Hp as [->| ->].
    + by rewrite lookup_delete_ne, lookup_delete_eq.
    + by rewrite lookup_delete_eq.
  - rewrite !lookup_delete_ne; [done|naive_solver..].
Qed.

(** X13. Constructing a second estimator on the kernel of a first one
    retargets that kernel: the first estimator keeps its training matrix, but
    the kernel it points to has been given the second training matrix as both
    operands. *)
Theorem second_constructor_retargets_kernel heap (data1 data2 : SGMatrix F)
    (p : Z) (lambda1 lambda2 : float64_t) (k : K) :
  heap !! p = Some k →
  ∃ heap1 h1 heap2 h2,
    Base_new_at heap data1 p lambda1 = Some (heap1, h1) ∧
    Base_new_at heap1 data2 p lambda2 = Some (heap2, h2) ∧
    m_kernel h1 = m_kernel h2 ∧ m_lhs h1 = data1 ∧ m_lhs h2 = data2 ∧
    heap2 !! m_kernel h1
      = Some (precompute (set_rhs data2 (set_lhs data2
                (precompute (set_rhs data1 (set_lhs data1 k)))))).
Proof.
  intros Hk. unfold Base_new_at. rewrite Hk. simpl.
  eexists _, _. rewrite lookup_insert_eq. simpl.
  eexists _, _. split_and!; try done. by rewrite lookup_insert_eq.
Qed.
End KernelOwnership.

(** ** What [grad()] does write *)

Section GradDestination.
Context {F : Float64} {K : Type} `{!KernelBase K}.
Context (hooks : Hooks K).

Implicit Types (e : Base K).

(** X14. The [memcpy] of [grad()] goes into the vector returned by the hook:
    at test point [i] the [D] first cells at the hook's pointer are
    overwritten with column [i] of the newly allocated matrix, that is with
    the cells [i·D, ..., i·D + D - 1] of the allocation, and the cells behind
    them stay; this write is all an iteration does before it hands [result]
    on. *)
Theorem grad_overwrites_hook_vector mem e (i : nat) (g : SGVector F) :
  (i < Z.to_nat (get_num_rhs e))%nat →
  grad_at e (Z.of_nat i) = Some g →
  (Z.to_nat (get_num_dimensions e) ≤ length (pointee (vector g)))%nat →
  let D := get_num_dimensions e in
  let result := SGMatrix_new mem D (get_num_rhs e) in
  grad_hook_vector_after hooks e D result i
    = Some (Ptr (address (vector g))
              ((fresh_cell mem <$> seq (i * Z.to_nat D) (Z.to_nat D))
               ++ drop (Z.to_nat D) (pointee (vector g)))) ∧
  grad_body hooks e D result i
    = (grad_hook_vector_after hooks e D result i ≫= λ _, Some result).
Proof.
  intros Hi Hg Hlen D result. split.
  2: { unfold grad_body, grad_hook_vector_after. by rewrite Hg. }
  unfold grad_hook_vector_after. rewrite Hg.
  change (memcpy (vector g) (get_column_vector result (Z.of_nat i)) (Z.to_nat D)
          = Some (Ptr (address (vector g))
                    ((fresh_cell mem <$> seq (i * Z.to_nat D) (Z.to_nat D))
                     ++ drop (Z.to_nat D) (pointee (vector g))))).
  pose proof (SGMatrix_new_column_length mem D (get_num_rhs e) i Hi) as Hcol.
  unfold memcpy. rewrite decide_True by done. do 3 f_equal.
  rewrite get_column_vector_pointee.
  change (pointee (matrix result))
    with (fresh_cells mem (Z.to_nat D * Z.to_nat (get_num_rhs e))).
  change (num_rows result) with D.
  unfold fresh_cells. rewrite <- fmap_drop, <- fmap_take. f_equal.
  rewrite drop_seq, take_seq. f_equal; nia.
Qed.
End GradDestination.

(** * The scenario, checked *)

Import Scenario.

(** ** The scenario's collaborators keep to their contracts *)

Lemma exact_sum : ExactSum exact.
Proof.
  split; simpl.
  - apply Qcplus_comm.
  - apply Qcplus_assoc.
  - apply Qcplus_0_l.
Qed.

(** Machine addition is not associative: in binary64 the value of
    [objective()] does depend on the order of the additions. *)
Remark binary64_not_exact : ¬ ExactSum binary64.
Proof.
  intros [_ Hassoc _].
  specialize (Hassoc 9007199254740992 1 1)%float. simpl in Hassoc.
  apply (f_equal (PrimFloat.eqb 9007199254740994)) in Hassoc.
  vm_compute in Hassoc. discriminate.
Qed.

Lemma recording_kernel_mirrors {F : Float64} :
  KernelMirrorsOperands (recording_kernel (F := F)).
Proof. by intros X Y [lhs rhs ready]. Qed.

Lemma scenario_fit {F : Float64} :
  fit simple_hooks zeroed unfitted = Some fitted.
Proof. reflexivity. Qed.

Lemma scenario_never_set {F : Float64} :
  test_data_never_set simple_hooks (fitted (F := F)).
Proof.
  eapply never_set_fit; [|apply scenario_fit].
  apply never_set_new.
Qed.

Lemma scenario_never_fitted {F : Float64} (data : SGMatrix F) :
  never_fitted (Base_new data kernel0 lambda).
Proof. by exists data, kernel0, lambda, []. Qed.

Lemma simple_hooks_log_pdf_returns {F : Float64} (e : Base recording_kernel) i :
  0 ≤ i < get_num_rhs e → is_Some (log_pdf_at (Hooks := simple_hooks) e i).
Proof.
  intros Hi. simpl. unfold in_range.
  destruct (Z.leb_spec 0 i); [|lia]. destruct (Z.ltb_spec i (get_num_rhs e)); [|lia].
  simpl. eauto.
Qed.

Lemma scenario_interleaving : interleaving 3 [2; 0; 1]%nat.
Proof. unfold interleaving, in_order. simpl. compute_done. Qed.

Lemma scenario_distribution : distribution 3 [[2; 0]; [1]]%nat.
Proof. unfold distribution, in_order. simpl. compute_done. Qed.

(** ** The singular system in exact arithmetic *)

Lemma this_plus (x y : Qc) : (this (x + y)%Qc == this x + this y)%Q.
Proof. apply Qred_correct. Qed.

Lemma this_mult (x y : Qc) : (this (x * y)%Qc == this x * this y)%Q.
Proof. apply Qred_correct. Qed.

Lemma this_minus (x y : Qc) : (this (x - y)%Qc == this x - this y)%Q.
Proof.
  unfold Qcminus. rewrite this_plus. unfold Qcopp. simpl.
  by rewrite Qred_correct.
Qed.

Lemma this_Q2Qc (q : Q) : (this (Q2Qc q) == q)%Q.
Proof. apply Qred_correct. Qed.


Lemma Qsquare_nonneg (t : Q) : (0 <= t * t)%Q.
Proof. nra. Qed.

(** From an inequality of exact scalars to one of rationals. *)
Ltac to_Q :=
  cbv -[Qcplus Qcmult Qcminus Qcdiv Q2Qc Qcle Qle Qeq this inject_Z] in *;
  unfold Qcle in *;
  repeat (rewrite ?this_plus, ?this_mult, ?this_minus, ?this_Q2Qc in * );
  unfold inject_Z in *.



(** On the system of the scenario, identity x = (1, 3, 5), the solver of the
    scenario meets the contract: (1, 3, 5) is the least-squares solution of
    minimum norm. *)
Lemma identity_solver_least_squares options :
  minimum_norm_least_squares (O := exact_order)
    {| rows := 3; cols := 3; coeffs := identity_cells 3 |} (num <$> [1; 3; 5])
    (JacobiSVD_solve (JacobiSVD := identity_solver (F := exact)) options
       {| rows := 3; cols := 3; coeffs := identity_cells 3 |} (num <$> [1; 3; 5])).
Proof.
  split.
  - split; [done|]. intros [|y0 [|y1 [|y2 [|]]]] Hy; try done. clear Hy.
    unfold residual, times, dot, squaredNorm, sum, coefficient.
    to_Q. generalize (this y0) (this y1) (this y2). intros a b c.
    pose proof (Qsquare_nonneg (a - 1)). pose proof (Qsquare_nonneg (b - 3)).
    pose proof (Qsquare_nonneg (c - 5)). lra.
  - intros [|y0 [|y1 [|y2 [|]]]] [Hy Hls]; try done.
    specialize (Hls (num <$> [1; 3; 5]) eq_refl).
    unfold residual, times, dot, squaredNorm, sum, coefficient in *.
    to_Q. revert Hls. generalize (this y0) (this y1) (this y2). intros a b c Hls.
    pose proof (Qsquare_nonneg (a - 1)) as Ha.
    pose proof (Qsquare_nonneg (b - 3)) as Hb.
    pose proof (Qsquare_nonneg (c - 5)) as Hc.
    assert ((a - 1) * (a - 1) == 0)%Q as Ha0 by lra.
    assert ((b - 3) * (b - 3) == 0)%Q as Hb0 by lra.
    assert ((c - 5) * (c - 5) == 0)%Q as Hc0 by lra.
    apply Qmult_integral in Ha0, Hb0, Hc0.
    assert (a == 1)%Q as -> by (destruct Ha0; lra).
    assert (b == 3)%Q as -> by (destruct Hb0; lra).
    assert (c == 5)%Q as -> by (destruct Hc0; lra).
    lra.
Qed.

(** ** The claims at the scenario *)

(** A copy of the training matrix in a buffer of its own is not the training
    data. *)
Lemma is_test_equals_train_data_storage_identity_witness :
  pointee (matrix data_copy) = pointee (matrix (m_lhs (fitted (F := binary64)))) ∧
  is_test_equals_train_data (Base_new (F := binary64) data kernel0 lambda) = true ∧
  is_test_equals_train_data (reset_test_data (fitted (F := binary64))) = true ∧
  is_test_equals_train_data (set_test_data (fitted (F := binary64)) data_copy) = false.
Proof.
  split; [reflexivity|].
  apply (is_test_equals_train_data_storage_identity
           data kernel0 lambda (fitted (F := binary64)) data_copy).
  simpl. lia.
Defined.


(** The three log-densities of the scenario, computed out of order into a
    dirty allocation. *)
Lemma log_pdf_batch_entries_witness :
  ∃ result, log_pdf_omp (F := binary64) simple_hooks [2; 0; 1]%nat dirty fitted
              = Some result ∧
    vlen result = 3 ∧
    length (pointee (vector result)) = 3%nat ∧
    ∀ i, 0 ≤ i < 3 →
         pointee (vector result) !! Z.to_nat i
         = log_pdf_at (Hooks := simple_hooks) fitted i.
Proof.
  apply (log_pdf_batch_entries (F := binary64) simple_hooks [2; 0; 1]%nat dirty fitted).
  - exact scenario_interleaving.
  - apply simple_hooks_log_pdf_returns.
Defined.

(** Two test points are set on the fitted scenario, then reset. *)
Lemma reset_test_data_restores_training_witness :
  reset_test_data (do_calls (fitted (F := binary64)) [call_set_test_data test_points])
    = fitted ∧
  log_pdf simple_hooks dirty
    (reset_test_data (do_calls (fitted (F := binary64)) [call_set_test_data test_points]))
  = log_pdf simple_hooks dirty fitted.
Proof.
  apply (reset_test_data_restores_training (F := binary64)
           (KernelMirrorsOperands0 := recording_kernel_mirrors)
           simple_hooks dirty fitted fitted [call_set_test_data test_points]).
  exact scenario_never_set.
Defined.

(** The iterations 2, 0, 1 into zeroed cells against the iterations 0, 1, 2
    into dirty ones. *)
Lemma log_pdf_parallel_equals_sequential_witness :
  (pointee ∘ vector) <$> log_pdf_omp (F := binary64) simple_hooks [2; 0; 1]%nat zeroed fitted
    = (pointee ∘ vector) <$> log_pdf (F := binary64) simple_hooks dirty fitted ∧
  vlen <$> log_pdf_omp (F := binary64) simple_hooks [2; 0; 1]%nat zeroed fitted
    = vlen <$> log_pdf (F := binary64) simple_hooks dirty fitted.
Proof.
  apply (log_pdf_parallel_equals_sequential (F := binary64) simple_hooks
           [2; 0; 1]%nat zeroed dirty fitted).
  exact scenario_interleaving.
Defined.

Lemma scenario_point_terms_return {F : Float64} (i : nat) :
  (i < 3)%nat → is_Some (point_term simple_hooks (fitted (F := F)) i).
Proof.
  intros Hi. destruct i as [|[|[|i]]]; [..|lia]; by eexists.
Qed.

(** The objective of the scenario in exact arithmetic, with the points 2 and
    0 on one thread and the point 1 on another. *)
Lemma objective_mean_of_point_terms_witness :
  ∃ terms,
    mapM (point_term (F := exact) simple_hooks fitted) (in_order 3) = Some terms ∧
    length terms = 3%nat ∧
    objective (F := exact) simple_hooks fitted
      = Some (f64_div (sum terms) (f64_of_index 3)) ∧
    objective_omp (F := exact) simple_hooks [[2; 0]; [1]]%nat fitted
      = Some (f64_div (sum terms) (f64_of_index 3)).
Proof.
  apply (objective_mean_of_point_terms (F := exact) (ExactSum0 := exact_sum)
           simple_hooks [[2; 0]; [1]]%nat fitted).
  - exact scenario_distribution.
  - apply scenario_point_terms_return.
Defined.

(** The scenario before its fit. *)
Lemma unfitted_queries_follow_hooks_witness :
  m_alpha_beta (unfitted (F := binary64)) = SGVector_empty ∧
  (is_Some (log_pdf_omp (F := binary64) simple_hooks [2; 0; 1]%nat zeroed unfitted) ↔
     ∀ i, (i < 3)%nat →
          is_Some (log_pdf_at (Hooks := simple_hooks (F := binary64)) unfitted (Z.of_nat i))) ∧
  (is_Some (grad_omp (F := binary64) simple_hooks [2; 0; 1]%nat zeroed unfitted) ↔
     ∀ i, (i < 3)%nat → grad_point_ok (F := binary64) simple_hooks unfitted i) ∧
  (is_Some (objective (F := binary64) simple_hooks unfitted) ↔
     ∀ i, (i < 3)%nat → is_Some (point_term (F := binary64) simple_hooks unfitted i)) ∧
  (is_Some (objective_omp (F := binary64) simple_hooks [[2; 0]; [1]]%nat unfitted) ↔
     ∀ i, (i < 3)%nat → is_Some (point_term (F := binary64) simple_hooks unfitted i)).
Proof.
  apply (unfitted_queries_follow_hooks (F := binary64) simple_hooks
           [2; 0; 1]%nat [[2; 0]; [1]]%nat zeroed unfitted).
  - apply scenario_never_fitted.
  - exact scenario_interleaving.
  - exact scenario_distribution.
Defined.

(** C2 fails on the code.  An estimator over no test points that was never
    fitted, and whose hooks all raise: the three batch queries return all the
    same, the objective with a NaN.  And with three points and hooks that do
    not check, [log_pdf()] returns numbers computed from the empty
    coefficient vector. *)
Lemma unfitted_queries_return_values :
  never_fitted (unfitted_empty (F := binary64)) ∧
  log_pdf (F := binary64) raising_hooks zeroed unfitted_empty
    = Some {| vector := Ptr 65536 []; vlen := 0 |} ∧
  grad (F := binary64) raising_hooks zeroed unfitted_empty
    = Some {| matrix := Ptr 65536 []; num_rows := 2; num_cols := 0 |} ∧
  objective (F := binary64) raising_hooks unfitted_empty = Some nan ∧
  never_fitted (unfitted (F := binary64)) ∧
  (pointee ∘ vector) <$> log_pdf (F := binary64) simple_hooks zeroed unfitted
    = Some [3; 7; 11]%float.
Proof.
  split_and!; try reflexivity; apply scenario_never_fitted.
Qed.

(** Two threads with nothing to do. *)
Lemma objective_no_test_points_witness :
  objective (F := binary64) raising_hooks unfitted_empty = Some (0 / 0)%float ∧
  objective_omp (F := binary64) raising_hooks [[]; []] unfitted_empty
    = Some (0 / 0)%float ∧
  PrimFloat.is_nan (0 / 0) = true.
Proof.
  apply (objective_no_test_points raising_hooks [[]; []] unfitted_empty).
  - reflexivity.
  - unfold distribution. simpl. reflexivity.
Defined.

(** C1 fails on the code.  On the fitted scenario [grad(0)] is the point
    (1, 2), and [grad()] returns the 2-by-3 matrix exactly as the allocator
    handed it out, here all zeros: its column 0 is (0, 0).  The [memcpy] in
    the loop has the hook's vector as its destination and the column of
    [result] as its source. *)
Theorem grad_batch_returns_untouched_allocation :
  grad (F := binary64) simple_hooks zeroed fitted
    = Some (SGMatrix_new zeroed 2 3) ∧
  column (SGMatrix_new (F := binary64) zeroed 2 3) 0 = [0; 0]%float ∧
  (pointee ∘ vector) <$> grad_at (Hooks := simple_hooks (F := binary64)) fitted 0
    = Some [1; 2]%float ∧
  grad (F := binary64) simple_hooks dirty fitted
    = Some (SGMatrix_new dirty 2 3) ∧
  column (SGMatrix_new (F := binary64) dirty 2 3) 0 = [40; 41]%float.
Proof. split_and!; reflexivity. Qed.

(** ** Further properties at the scenario *)

Import Cases.

(** From here on numbers are machine numbers unless said otherwise. *)
#[local] Existing Instance binary64.

(** The three training points of the scenario make up its buffer. *)
Lemma points_tile_buffers_witness :
  concat ((λ i : nat, let x := get_lhs_point (fitted (F := binary64)) (Z.of_nat i) in
                       take (Z.to_nat (vlen x)) (pointee (vector x)))
            <$> in_order 3)
    = [1; 2; 3; 4; 5; 6]%float.
Proof.
  apply (proj1 (points_tile_buffers (fitted (F := binary64))
                  eq_refl eq_refl eq_refl)).
Defined.

(** Three test points of one coordinate against training points of two. *)
Lemma get_rhs_point_past_the_end_witness :
  let e' := set_test_data (fitted (F := binary64)) flat_points in
  vlen (get_rhs_point e' 2) = 2 ∧
  length (pointee (vector (get_rhs_point e' 2))) = 1%nat.
Proof.
  destruct (get_rhs_point_past_the_end (fitted (F := binary64)) flat_points)
    as (Hvlen & Hcells & _).
  - compute_done.
  - compute_done.
  - reflexivity.
  - split; [exact Hvlen|exact Hcells].
Defined.

Lemma scenario_grad_point_ok {F : Float64} (i : nat) :
  (i < 3)%nat → grad_point_ok simple_hooks (fitted (F := F)) i.
Proof.
  intros Hi. destruct i as [|[|[|i]]]; [..|lia];
    (eexists; split; [reflexivity|vm_compute; lia]).
Qed.

Lemma doubling_grad_point_ok {F : Float64} (i : nat) :
  (i < 3)%nat → grad_point_ok doubling_hooks (fitted (F := F)) i.
Proof.
  intros Hi. destruct i as [|[|[|i]]]; [..|lia];
    (eexists; split; [reflexivity|vm_compute; lia]).
Qed.

(** The gradient doubled, the matrix returned the same. *)
Lemma grad_takes_nothing_from_hook_witness :
  grad_omp (F := binary64) simple_hooks [2; 0; 1]%nat dirty fitted
    = grad_omp (F := binary64) doubling_hooks [0; 1; 2]%nat dirty fitted.
Proof.
  apply (grad_takes_nothing_from_hook (F := binary64) simple_hooks doubling_hooks
           [2; 0; 1]%nat [0; 1; 2]%nat dirty fitted).
  - exact scenario_interleaving.
  - unfold interleaving, in_order. simpl. reflexivity.
  - apply scenario_grad_point_ok.
  - apply doubling_grad_point_ok.
Defined.

(** Vectors with a further cell and no declared length. *)
Lemma objective_reads_first_cells_witness :
  objective (F := binary64) simple_hooks fitted
    = objective (F := binary64) padded_hooks fitted ∧
  objective_omp (F := binary64) simple_hooks [[2; 0]; [1]]%nat fitted
    = objective_omp (F := binary64) padded_hooks [[2; 0]; [1]]%nat fitted.
Proof.
  apply (objective_reads_first_cells (F := binary64) simple_hooks padded_hooks
           [[2; 0]; [1]]%nat fitted).
  - intros i Hi. destruct i as [|[|[|i]]]; [..|vm_compute in Hi; lia];
      split; reflexivity.
  - exact scenario_distribution.
Defined.

Lemma busy_life_runs {F : Float64} :
  run simple_hooks (Base_new data kernel0 lambda) (busy_life (F := F))
  = Some after_busy_life.
Proof. reflexivity. Qed.

(** Dimensions and test data at the end of a life of four calls. *)
Lemma lifetime_of_data_store_witness :
  m_lhs (after_busy_life (F := binary64)) = data ∧
  get_num_dimensions (after_busy_life (F := binary64)) = 2 ∧
  get_num_lhs (after_busy_life (F := binary64)) = 3 ∧
  m_rhs (after_busy_life (F := binary64)) = data.
Proof.
  destruct (lifetime_of_data_store (F := binary64) simple_hooks
              data kernel0 lambda busy_life after_busy_life busy_life_runs)
    as (Hl & _ & HD & HN & Hr & _).
  split_and!; [exact Hl|exact HD|exact HN|exact Hr].
Defined.

(** The kernel at the end of that life. *)
Lemma kernel_never_stale_witness :
  ∃ k : recording_kernel (F := binary64),
    m_kernel (after_busy_life (F := binary64))
    = precompute (F := binary64)
        (set_rhs (m_rhs (after_busy_life (F := binary64))) k).
Proof.
  apply (kernel_never_stale (F := binary64) simple_hooks
           data kernel0 lambda busy_life after_busy_life busy_life_runs).
Defined.

(** The scenario fitted into zeroed cells, then again into dirty cells at
    another address. *)
Lemma fit_again_witness :
  ∃ e'', fit simple_hooks dirty fitted = Some e'' ∧
    pointee (vector (m_alpha_beta e'')) = [1; 3; 5]%float ∧
    vlen (m_alpha_beta e'') = 3 ∧
    address (vector (m_alpha_beta e'')) = 131072 ∧
    address (vector (m_alpha_beta fitted)) = 65536.
Proof.
  destruct (fit_again simple_hooks zeroed dirty unfitted fitted)
    as (e'' & Hfit & Hcells & Hvlen & Haddr & _).
  - intros e0 alpha_beta. reflexivity.
  - reflexivity.
  - exists e''. split_and!;
      [exact Hfit|exact Hcells|exact Hvlen|exact Haddr|reflexivity].
Defined.

(** Two test points set before the fit, or after it. *)
Lemma fit_commutes_with_set_test_data_witness :
  fit (F := binary64) simple_hooks zeroed (set_test_data unfitted test_points)
  = (λ e', set_test_data e' test_points)
      <$> fit (F := binary64) simple_hooks zeroed unfitted.
Proof.
  apply (fit_commutes_with_set_test_data (F := binary64) simple_hooks
           zeroed unfitted test_points).
  reflexivity.
Defined.

(** Three equations, four unknowns. *)
Lemma fit_system_not_square_witness :
  fit (F := binary64) (H := sized_solver) wide_hooks zeroed unfitted = None.
Proof.
  apply (fit_system_not_square (F := binary64) (H := sized_solver) wide_hooks
           zeroed unfitted
           {| matrix := Ptr 57344 (replicate 12 (num 1)); num_rows := 3; num_cols := 4 |}
           {| vector := Ptr 61440 (num <$> [1; 3; 5]); vlen := 3 |}).
  - intros options M v. simpl.
    rewrite length_take, length_app, length_replicate. lia.
  - reflexivity.
  - simpl. lia.
Defined.

(** Two estimators on the kernel at 256. *)
Lemma kernel_shared_through_pointer_witness :
  ∃ (heap' : gmap Z (recording_kernel (F := binary64))) (h1' : Base (F := binary64) Z),
    set_test_data_at two_kernels (at_kernel 256) test_points = Some (heap', h1') ∧
    m_kernel h1' = 256 ∧ m_rhs h1' = test_points ∧
    heap' !! m_kernel (at_kernel (F := binary64) 256)
      = Some (precompute (F := binary64) (set_rhs test_points kernel0)).
Proof.
  apply (kernel_shared_through_pointer (F := binary64) two_kernels
           (at_kernel 256) (at_kernel 256) test_points kernel0).
  reflexivity.
Defined.

(** Both destroyed. *)
Lemma shared_kernel_deleted_twice_witness :
  ∃ heap' : gmap Z (recording_kernel (F := binary64)),
    Base_delete two_kernels (at_kernel 256) = Some heap' ∧
    heap' !! 256 = None ∧
    Base_delete heap' (at_kernel 256) = None ∧
    set_test_data_at heap' (at_kernel 256) test_points = None ∧
    reset_test_data_at heap' (at_kernel 256) = None.
Proof.
  apply (shared_kernel_deleted_twice (F := binary64) two_kernels
           (at_kernel 256) (at_kernel 256) test_points kernel0).
  - compute_done.
  - reflexivity.
  - reflexivity.
Defined.

(** An estimator on the kernel at 256 and one on the kernel at 512. *)
Lemma distinct_kernels_deleted_once_witness :
  (Base_delete (F := binary64) (K := recording_kernel) two_kernels (at_kernel 256)
     ≫= λ heap', Base_delete heap' (at_kernel 512))
  = Some (delete 512 (delete 256 two_kernels)) ∧
  (Base_delete (F := binary64) (K := recording_kernel) two_kernels (at_kernel 512)
     ≫= λ heap', Base_delete heap' (at_kernel 256))
  = Some (delete 512 (delete 256 two_kernels)).
Proof.
  destruct (distinct_kernels_deleted_once (F := binary64) two_kernels
              (at_kernel 256) (at_kernel 512) kernel0 kernel0)
    as (H1 & H2 & _).
  - compute_done.
  - compute_done.
  - compute_done.
  - reflexivity.
  - reflexivity.
  - split; [exact H1|exact H2].
Defined.

(** The scenario and a second estimator, over the two test points, both on
    the kernel at 256. *)
Lemma second_constructor_retargets_kernel_witness :
  ∃ (heap1 : gmap Z (recording_kernel (F := binary64))) (h1 : Base (F := binary64) Z)
    (heap2 : gmap Z (recording_kernel (F := binary64))) (h2 : Base (F := binary64) Z),
    Base_new_at two_kernels data 256 lambda = Some (heap1, h1) ∧
    Base_new_at heap1 test_points 256 lambda = Some (heap2, h2) ∧
    m_kernel h1 = m_kernel h2 ∧ m_lhs h1 = data ∧ m_lhs h2 = test_points ∧
    heap2 !! m_kernel h1
      = Some (precompute (F := binary64)
                (set_rhs test_points (set_lhs test_points
                   (precompute (set_rhs data (set_lhs data kernel0)))))).
Proof.
  apply (second_constructor_retargets_kernel (F := binary64) two_kernels
           data test_points 256 lambda lambda kernel0).
  reflexivity.
Defined.

(** The vector returned by [grad(1)], the point (3, 4), after the iteration
    of [grad()] into dirty cells. *)
Lemma grad_overwrites_hook_vector_witness :
  grad_at (Hooks := simple_hooks) fitted 1
    = Some {| vector := Ptr 28672 (num <$> [3; 4]); vlen := 2 |} ∧
  grad_hook_vector_after simple_hooks fitted 2 (SGMatrix_new dirty 2 3) 1
    = Some (Ptr 28672 (num <$> [42; 43])).
Proof.
  split; [reflexivity|].
  destruct (grad_overwrites_hook_vector simple_hooks dirty fitted 1
              {| vector := Ptr 28672 (num <$> [3; 4]); vlen := 2 |})
    as [Hafter _].
  - vm_compute. lia.
  - reflexivity.
  - vm_compute. lia.
  - exact Hafter.
Defined.

